(** * SE3Control: the geometric controller of rotorpy/controllers/quadrotor_control.py

    A shallow embedding of [SE3Control.__init__] and [SE3Control.update].

    Numbers.  The program computes on IEEE doubles through numpy.  The
    embedding idealises a finite double as a real number of [R]; rounding,
    overflow and underflow are not modelled.  The vehicle parameters read by
    the constructor are finite Python floats ([R]); the per-step arrays may
    hold not-a-number entries, so they range over [float64] below, which adds
    one non-finite value to [R].

    Exceptions are values of [exn]; a call that may raise returns a
    [result].

    One outcome does hinge on rounding: whether [np.linalg.inv] raises on an
    array that is singular as a real array.  There the real-number reading
    determines no outcome ([Undetermined] below), and the factorisation is
    run on the doubles themselves ([lu_pivots]). *)

From Stdlib Require Import PrimFloat.
From Stdlib Require Import String Reals Lra Lia ZArith List Bool.
Import ListNotations.

Set Implicit Arguments.
Set Warnings "-inexact-float".

Open Scope R_scope.

(** ** Exceptions *)

Inductive linalg_msg : Set :=
| NotSquare   (* "Last 2 dimensions of the array must be square" *)
| Singular.   (* "Singular matrix" *)

Inductive exn : Set :=
| ZeroDivisionError
| ValueError
| LinAlgError (m : linalg_msg).

(** A call returns a value, raises, or, where its outcome hinges on
    rounding, is left [Undetermined] by the real-number reading. *)
Inductive result (A : Type) : Type :=
| Ok (a : A)
| Err (e : exn)
| Undetermined.

Arguments Ok {A} a.
Arguments Err {A} e.
Arguments Undetermined {A}.

Definition bind {A B : Type} (r : result A) (k : A -> result B) : result B :=
  match r with
  | Ok a => k a
  | Err e => Err e
  | Undetermined => Undetermined
  end.

Notation "x <- r ;; k" := (bind r (fun x => k))
  (at level 61, r at next level, right associativity).

Definition is_ok {A : Type} (r : result A) : Prop :=
  match r with Ok _ => True | _ => False end.

(** ** Arrays of shape (3,) *)

Record vec3 (A : Type) : Type := V3 { v0 : A; v1 : A; v2 : A }.

(** [np.cross] on two real 3-vectors. *)
Definition cross (a b : vec3 R) : vec3 R :=
  V3 (v1 a * v2 b - v2 a * v1 b)
     (v2 a * v0 b - v0 a * v2 b)
     (v0 a * v1 b - v1 a * v0 b).

(** ** Two-dimensional real arrays, as lists of rows *)

Definition matrix := list (list R).

Definition ncols (M : matrix) : nat :=
  match M with
  | [] => O
  | r :: _ => length r
  end.

Definition dotl (a b : list R) : R :=
  fold_right Rplus 0 (map (fun p => fst p * snd p) (combine a b)).

Definition col (j : nat) (M : matrix) : list R :=
  map (fun r => nth j r 0) M.

Definition transpose (n : nat) (M : matrix) : matrix :=
  map (fun j => col j M) (seq 0 n).

(** [A @ B] for two-dimensional arrays. *)
Definition matmul (A B : matrix) : matrix :=
  map (fun r => map (fun j => dotl r (col j B)) (seq 0 (ncols B))) A.

(** Row [i] of the identity holds 1 at column [i]; rows are built by
    shifting the column index. *)
Fixpoint unit_row (n i : nat) : list R :=
  match n with
  | O => []
  | S n' => match i with
            | O => 1 :: repeat 0 n'
            | S i' => 0 :: unit_row n' i'
            end
  end.

Definition identity (n : nat) : matrix :=
  map (unit_row n) (seq 0 n).

(** *** Determinant and inverse

    [np.linalg.inv] solves [M X = I] by LAPACK's LU factorisation with
    partial pivoting, and raises ["Singular matrix"] exactly when that
    factorisation meets a pivot equal to zero.  On an array with a non-zero
    determinant the answer is, on real numbers, the unique inverse, which is
    written here by cofactors. *)

Fixpoint remove_nth {A : Type} (j : nat) (l : list A) : list A :=
  match l with
  | [] => []
  | x :: t => match j with
              | O => t
              | S j' => x :: remove_nth j' t
              end
  end.

Definition minor (i j : nat) (M : matrix) : matrix :=
  map (remove_nth j) (remove_nth i M).

Definition sign_pow (i : nat) : R := if Nat.even i then 1 else -1.

(** Laplace expansion along the first row of an [n] x [n] array. *)
Fixpoint det (n : nat) (M : matrix) : R :=
  match n with
  | O => 1
  | S n' =>
      fold_right Rplus 0
        (map (fun j => sign_pow j * nth j (nth 0%nat M []) 0 * det n' (minor 0 j M))
             (seq 0 (S n')))
  end.

Definition cofactor (n i j : nat) (M : matrix) : R :=
  sign_pow (i + j) * det (Nat.pred n) (minor i j M).

Definition adjugate_over_det (n : nat) (M : matrix) : matrix :=
  map (fun i => map (fun j => cofactor n j i M / det n M) (seq 0 n)) (seq 0 n).

Definition is_square (M : matrix) : bool :=
  forallb (fun r => Nat.eqb (length r) (length M)) M.

(** A row whose entries are all zero. *)
Definition zero_row (r : list R) : bool :=
  forallb (fun x => if Req_dec_T x 0 then true else false) r.

(** [np.linalg.inv].  An array that is not square raises [LinAlgError].  A
    row of zeros stays a row of zeros through every elimination step, on
    doubles as on reals, so the factorisation ends on a pivot that is
    exactly zero and the call raises ["Singular matrix"].  On any other
    array with a zero determinant a pivot is zero on reals, but on doubles it
    may round to a tiny non-zero number, in which case the call returns an
    array instead of raising: the outcome is [Undetermined] here. *)
Definition np_linalg_inv (M : matrix) : result matrix :=
  if is_square M then
    if existsb zero_row M then Err (LinAlgError Singular)
    else if Req_dec_T (det (length M) M) 0 then Undetermined
    else Ok (adjugate_over_det (length M) M)
  else Err (LinAlgError NotSquare).

(** ** Array constructors used by the constructor *)

(** [range(n)] *)
Definition range (n : Z) : list Z := map Z.of_nat (seq 0 (Z.to_nat n)).

(** [np.ones((1, n))]: a negative dimension raises [ValueError]. *)
Definition np_ones_row (n : Z) : result matrix :=
  if (n <? 0)%Z then Err ValueError else Ok [repeat 1 (Z.to_nat n)].

(** [np.hstack]: the blocks are joined row by row; an empty sequence and
    blocks of different heights raise [ValueError]. *)
Definition np_hstack (blocks : list matrix) : result matrix :=
  match blocks with
  | [] => Err ValueError
  | B :: rest =>
      if forallb (fun B' => Nat.eqb (length B') (length B)) rest
      then Ok (map (fun i => concat (map (fun B' => nth i B' []) blocks))
                   (seq 0 (length B)))
      else Err ValueError
  end.

(** [np.vstack]: the blocks are piled up; rows of different widths raise
    [ValueError]. *)
Definition np_vstack (blocks : list matrix) : result matrix :=
  match concat blocks with
  | [] => Err ValueError
  | r :: rest =>
      if forallb (fun r' => Nat.eqb (length r') (length r)) rest
      then Ok (r :: rest)
      else Err ValueError
  end.

(** Division of two Python floats. *)
Definition py_div (a b : R) : result R :=
  if Req_dec_T b 0 then Err ZeroDivisionError else Ok (a / b).

(** ** Vehicle parameters: the dict [quad_params]

    One field per key read by the constructor.  [rotor_pos] is a dict; its
    iteration order is its insertion order, so it is a list of entries. *)

Record quad_params : Type := {
  qp_mass : R;
  qp_Ixx : R; qp_Iyy : R; qp_Izz : R;
  qp_Ixy : R; qp_Ixz : R; qp_Iyz : R;
  qp_c_Dx : R; qp_c_Dy : R; qp_c_Dz : R;
  qp_num_rotors : Z;
  qp_rotor_pos : list (string * vec3 R);
  qp_rotor_speed_min : R; qp_rotor_speed_max : R;
  qp_k_eta : R; qp_k_m : R; qp_k_d : R; qp_k_z : R; qp_k_flap : R;
  qp_tau_m : R
}.

(** ** The controller instance: the attributes of [self] *)

Record SE3Control : Type := {
  mass : R;
  Ixx : R; Iyy : R; Izz : R;
  Ixy : R; Ixz : R; Iyz : R;
  c_Dx : R; c_Dy : R; c_Dz : R;
  num_rotors : Z;
  rotor_pos : list (string * vec3 R);
  rotor_speed_min : R; rotor_speed_max : R;
  k_eta : R; k_m : R; k_d : R; k_z : R; k_flap : R;
  tau_m : R;
  inertia : vec3 (vec3 R);
  g : R;
  kp_pos : vec3 R;
  kd_pos : vec3 R;
  kp_att : R;
  kd_att : R;
  f_to_TM : matrix;
  TM_to_f : matrix
}.

(** The unit thrust axis [np.array([0,0,1])]. *)
Definition e3 : vec3 R := V3 0 0 1.

(** [np.cross(p, [0,0,1]).reshape(-1,1)[0:2]]: a 2 x 1 column. *)
Definition arm_column (p : vec3 R) : matrix :=
  let c := cross p e3 in
  firstn 2 [[v0 c]; [v1 c]; [v2 c]].

(** [np.array([k*(-1)**i for i in range(n)]).reshape(1,-1)] *)
Definition yaw_row (k : R) (n : Z) : matrix :=
  [map (fun i => k * IZR ((-1) ^ i)) (range n)].

(** Line 63: the forward allocation matrix. *)
Definition build_f_to_TM (k : R) (n : Z) (pos : list (string * vec3 R))
  : result matrix :=
  ones <- np_ones_row n ;;
  arms <- np_hstack (map (fun kv => arm_column (snd kv)) pos) ;;
  np_vstack [ones; arms; yaw_row k n].

(** [SE3Control.__init__] *)
Definition __init__ (qp : quad_params) : result SE3Control :=
  k <- py_div (qp_k_m qp) (qp_k_eta qp) ;;
  f <- build_f_to_TM k (qp_num_rotors qp) (qp_rotor_pos qp) ;;
  f_inv <- np_linalg_inv f ;;
  Ok {| mass := qp_mass qp;
        Ixx := qp_Ixx qp; Iyy := qp_Iyy qp; Izz := qp_Izz qp;
        Ixy := qp_Ixy qp; Ixz := qp_Ixz qp; Iyz := qp_Iyz qp;
        c_Dx := qp_c_Dx qp; c_Dy := qp_c_Dy qp; c_Dz := qp_c_Dz qp;
        num_rotors := qp_num_rotors qp;
        rotor_pos := qp_rotor_pos qp;
        rotor_speed_min := qp_rotor_speed_min qp;
        rotor_speed_max := qp_rotor_speed_max qp;
        k_eta := qp_k_eta qp; k_m := qp_k_m qp; k_d := qp_k_d qp;
        k_z := qp_k_z qp; k_flap := qp_k_flap qp;
        tau_m := qp_tau_m qp;
        inertia := V3 (V3 (qp_Ixx qp) (qp_Ixy qp) (qp_Ixz qp))
                      (V3 (qp_Ixy qp) (qp_Iyy qp) (qp_Iyz qp))
                      (V3 (qp_Ixz qp) (qp_Iyz qp) (qp_Izz qp));
        g := 9.81;
        kp_pos := V3 6.5 6.5 15;
        kd_pos := V3 4.0 4.0 9;
        kp_att := 544;
        kd_att := 46.64;
        f_to_TM := f;
        TM_to_f := f_inv |}.

(** ** Lines 59, 63 and 64 on doubles

    Where the real-number reading leaves [np.linalg.inv] undetermined, the
    outcome is read off the doubles themselves.  [f_to_TM_b64] is lines 59
    and 63 computed in binary64, for as many rotors as there are positions.
    [lu_pivots] is the factorisation LAPACK's [getrf] runs for
    [np.linalg.inv]: column by column, the row that holds the first entry of
    largest magnitude is swapped up, the entries below the pivot are scaled
    by its reciprocal, and the rows below are updated.  [np.linalg.inv]
    raises ["Singular matrix"] exactly when one of the pivots is zero. *)

Definition b64 : Set := PrimFloat.float.
Definition b64_matrix : Set := list (list b64).

Definition f_to_TM_b64 (keta km : b64) (pos : list (b64 * b64 * b64))
  : b64_matrix :=
  let k := (km / keta)%float in
  [map (fun _ => 1%float) pos;
   map (fun p => let '(x, y, z) := p in (y * 1 - z * 0)%float) pos;
   map (fun p => let '(x, y, z) := p in (z * 0 - x * 1)%float) pos;
   map (fun i => (k * (if Nat.even i then 1 else -1))%float)
       (seq 0 (length pos))].

(** Index of the first entry of largest magnitude in [col], where [best]
    is the index found so far, [vbest] its entry and [i] the index of the
    head of [col]. *)
Fixpoint argmax_abs (best : nat) (vbest : b64) (i : nat) (col : list b64)
  : nat :=
  match col with
  | [] => best
  | x :: rest =>
      if (PrimFloat.abs vbest <? PrimFloat.abs x)%float
      then argmax_abs i x (S i) rest
      else argmax_abs best vbest (S i) rest
  end.

Definition pivot_index (A : b64_matrix) : nat :=
  match map (fun r => hd 0%float r) A with
  | [] => O
  | x :: rest => argmax_abs 0 x 1 rest
  end.

(** Rows [0] and [p] exchanged. *)
Definition swap_rows (p : nat) (A : b64_matrix) : b64_matrix :=
  match A with
  | [] => []
  | r0 :: rest =>
      match p with
      | O => A
      | S p' => nth p' rest r0 :: (firstn p' rest ++ r0 :: skipn (S p') rest)
      end
  end.

(** The multiplier of a row below the pivot: LAPACK scales by the
    reciprocal of the pivot unless the pivot is below the smallest normal
    double. *)
Definition getf2_scale (a piv : b64) : b64 :=
  if (0x1p-1022 <=? PrimFloat.abs piv)%float then (a * (1 / piv))%float
  else (a / piv)%float.

(** The multiplier by plain division. *)
Definition div_scale (a piv : b64) : b64 := (a / piv)%float.

(** One row below the pivot row after the elimination step, without its
    first column. *)
Definition eliminate (scale : b64 -> b64 -> b64) (prow row : list b64)
  : list b64 :=
  match prow, row with
  | piv :: ptail, a :: tail =>
      if (piv =? 0)%float then tail
      else
        let l := scale a piv in
        map (fun xy => (fst xy - l * snd xy)%float) (combine tail ptail)
  | _, _ => []
  end.

(** The pivots of the first [n] columns, in order. *)
Fixpoint lu_pivots (scale : b64 -> b64 -> b64) (n : nat) (A : b64_matrix)
  : list b64 :=
  match n with
  | O => []
  | S n' =>
      match swap_rows (pivot_index A) A with
      | [] => []
      | prow :: rows =>
          hd 0%float prow :: lu_pivots scale n' (map (eliminate scale prow) rows)
      end
  end.

(** Whether [np.linalg.inv] raises ["Singular matrix"] on the square array
    [A] of doubles. *)
Definition np_linalg_inv_raises_b64 (A : b64_matrix) : bool :=
  existsb (fun p => (p =? 0)%float) (lu_pivots getf2_scale (length A) A).

(** ** Entries of the per-step arrays

    A double is either finite, idealised as a real, or not finite.  numpy
    does not raise on [0/0] or on the square root of a negative number: it
    yields not-a-number, and every operation on not-a-number yields it again.
    A non-zero value divided by zero is an infinity in numpy; [update]
    divides only by a norm (zero exactly when the vector is zero, on reals)
    and by [k_eta] (non-zero once the constructor has returned), so the one
    non-finite value [NaN] is enough here. *)

Inductive float64 : Type :=
| NaN
| Fin (r : R).

Definition lift1 (op : R -> R) (a : float64) : float64 :=
  match a with
  | Fin x => Fin (op x)
  | NaN => NaN
  end.

Definition lift2 (op : R -> R -> R) (a b : float64) : float64 :=
  match a, b with
  | Fin x, Fin y => Fin (op x y)
  | _, _ => NaN
  end.

Definition fadd := lift2 Rplus.
Definition fsub := lift2 Rminus.
Definition fmul := lift2 Rmult.
Definition fneg := lift1 Ropp.
Definition fabs := lift1 Rabs.
Definition fcos := lift1 cos.
Definition fsin := lift1 sin.

Definition fdiv (a b : float64) : float64 :=
  match a, b with
  | Fin x, Fin y => if Req_dec_T y 0 then NaN else Fin (x / y)
  | _, _ => NaN
  end.

(** [np.sqrt] *)
Definition fsqrt (a : float64) : float64 :=
  match a with
  | Fin x => if Rlt_dec x 0 then NaN else Fin (sqrt x)
  | NaN => NaN
  end.

Definition Rsign (x : R) : R :=
  if Rlt_dec x 0 then -1 else if Rlt_dec 0 x then 1 else 0.

(** [np.sign] *)
Definition fsign := lift1 Rsign.

Declare Scope f64_scope.
Delimit Scope f64_scope with f64.
Bind Scope f64_scope with float64.
Infix "+" := fadd : f64_scope.
Infix "-" := fsub : f64_scope.
Infix "*" := fmul : f64_scope.
Infix "/" := fdiv : f64_scope.
Notation "- a" := (fneg a) : f64_scope.

(** *** Arrays of shape (3,), (3,3) and (4,) over [float64] *)

Definition vecF := vec3 float64.
Definition matF := vec3 vecF.

Definition vmap {A B : Type} (f : A -> B) (a : vec3 A) : vec3 B :=
  V3 (f (v0 a)) (f (v1 a)) (f (v2 a)).

Definition vzip {A B C : Type} (f : A -> B -> C) (a : vec3 A) (b : vec3 B)
  : vec3 C :=
  V3 (f (v0 a) (v0 b)) (f (v1 a) (v1 b)) (f (v2 a) (v2 b)).

(** A real array seen among the [float64] ones. *)
Definition vfin (a : vec3 R) : vecF := vmap Fin a.
Definition mfin (M : vec3 (vec3 R)) : matF := vmap vfin M.

Definition vadd : vecF -> vecF -> vecF := vzip fadd.
Definition vsub : vecF -> vecF -> vecF := vzip fsub.
Definition vmul : vecF -> vecF -> vecF := vzip fmul.
Definition vneg : vecF -> vecF := vmap fneg.
(** scalar * array and array / scalar *)
Definition vscale (k : float64) : vecF -> vecF := vmap (fmul k).
Definition vdivs (a : vecF) (k : float64) : vecF := vmap (fun e => fdiv e k) a.

(** [np.dot] of two 3-vectors *)
Definition dot3 (a b : vecF) : float64 :=
  (v0 a * v0 b + v1 a * v1 b + v2 a * v2 b)%f64.

(** [np.cross] *)
Definition fcross (a b : vecF) : vecF :=
  V3 (v1 a * v2 b - v2 a * v1 b)%f64
     (v2 a * v0 b - v0 a * v2 b)%f64
     (v0 a * v1 b - v1 a * v0 b)%f64.

(** [np.linalg.norm] of a 3-vector *)
Definition norm (a : vecF) : float64 := fsqrt (dot3 a a).

Definition column (j : vecF -> float64) (M : matF) : vecF :=
  V3 (j (v0 M)) (j (v1 M)) (j (v2 M)).

(** [M.T] *)
Definition transpose3 (M : matF) : matF :=
  V3 (column (@v0 _) M) (column (@v1 _) M) (column (@v2 _) M).

(** [M @ a] for a 3 x 3 array and a 3-vector *)
Definition matvec3 (M : matF) (a : vecF) : vecF := vmap (fun r => dot3 r a) M.

(** [A @ B] for two 3 x 3 arrays *)
Definition matmul3 (A B : matF) : matF :=
  vmap (fun r => vmap (fun c => dot3 r c) (transpose3 B)) A.

Definition msub (A B : matF) : matF := vzip vsub A B.
Definition mscale (k : float64) (A : matF) : matF := vmap (vscale k) A.

Definition zero3 : vecF := V3 (Fin 0) (Fin 0) (Fin 0).

(** Quaternions [i, j, k, w] *)
Record quat : Type := Quat { qi : float64; qj : float64; qk : float64; qw : float64 }.

(** [M @ a] for a real two-dimensional array and a one-dimensional array:
    the widths must agree, else [ValueError]. *)
Definition fdotl (r : list R) (a : list float64) : float64 :=
  fold_right fadd (Fin 0) (map (fun p => (Fin (fst p) * snd p)%f64) (combine r a)).

Definition np_matvec (M : matrix) (a : list float64) : result (list float64) :=
  if forallb (fun r => Nat.eqb (length r) (length a)) M
  then Ok (map (fun r => fdotl r a) M)
  else Err ValueError.

(** ** Per-step records: the dicts [state], [flat_output] and [control_input] *)

Record VehicleState : Type := {
  st_x : vecF;      (* state['x'] *)
  st_v : vecF;      (* state['v'] *)
  st_q : quat;      (* state['q'] *)
  st_w : vecF       (* state['w'] *)
}.

Record FlatOutput : Type := {
  fo_x : vecF;
  fo_x_dot : vecF;
  fo_x_ddot : vecF;
  fo_x_dddot : vecF;
  fo_x_ddddot : vecF;
  fo_yaw : float64;
  fo_yaw_dot : float64
}.

Record ControlCommand : Type := {
  cmd_motor_speeds : list float64;
  cmd_thrust : float64;
  cmd_moment : vecF;
  cmd_q : quat
}.

(** ** The helpers local to [update] *)

(** [normalize]: [x / np.linalg.norm(x)], with no test on the norm. *)
Definition normalize (a : vecF) : vecF := vdivs a (norm a).

(** [vee_map]: [[-S[1,2], S[0,2], -S[0,1]]] *)
Definition vee_map (S : matF) : vecF :=
  V3 (- v2 (v1 S))%f64 (v2 (v0 S)) (- v1 (v0 S))%f64.

(** Lines 142-143 on one entry: force to signed rotor speed. *)
Definition motor_speed (keta : R) (force : float64) : float64 :=
  let s := (force / Fin keta)%f64 in
  (fsign s * fsqrt (fabs s))%f64.

(** ** Method bodies

    A method body runs on the attributes of [self].  It may read an
    attribute, assign one, and call library functions that may raise.  The
    instance is threaded through the body, statement by statement: what the
    caller holds after the call is the instance the body has ended on, also
    when the body raises. *)
Definition Method (A : Type) : Type := SE3Control -> result A * SE3Control.

Definition ret {A : Type} (a : A) : Method A := fun self => (Ok a, self).

Definition bindM {A B : Type} (m : Method A) (k : A -> Method B) : Method B :=
  fun self =>
    match m self with
    | (Ok a, self') => k a self'
    | (Err e, self') => (Err e, self')
    | (Undetermined, self') => (Undetermined, self')
    end.

Notation "x <~ m ;; k" := (bindM m (fun x => k))
  (at level 61, m at next level, right associativity).

(** [self.x] read in an expression. *)
Definition getattr {A : Type} (x : SE3Control -> A) : Method A :=
  fun self => (Ok (x self), self).

(** [self.x = v], where [assign v] is the instance with [x] set to [v]. *)
Definition setattr {A : Type} (assign : A -> SE3Control -> SE3Control) (v : A)
  : Method unit :=
  fun self => (Ok tt, assign v self).

(** A library call on arrays, which it does not modify. *)
Definition call {A : Type} (r : result A) : Method A := fun self => (r, self).

(** A method body that leaves every instance as it found it. *)
Definition read_only {A : Type} (m : Method A) : Prop :=
  forall self, snd (m self) = self.

(** The instance with the attitude gain [kp_att] set to [v]. *)
Definition set_kp_att (v : R) (self : SE3Control) : SE3Control :=
  {| mass := mass self;
     Ixx := Ixx self; Iyy := Iyy self; Izz := Izz self;
     Ixy := Ixy self; Ixz := Ixz self; Iyz := Iyz self;
     c_Dx := c_Dx self; c_Dy := c_Dy self; c_Dz := c_Dz self;
     num_rotors := num_rotors self;
     rotor_pos := rotor_pos self;
     rotor_speed_min := rotor_speed_min self;
     rotor_speed_max := rotor_speed_max self;
     k_eta := k_eta self; k_m := k_m self; k_d := k_d self;
     k_z := k_z self; k_flap := k_flap self;
     tau_m := tau_m self;
     inertia := inertia self;
     g := g self;
     kp_pos := kp_pos self;
     kd_pos := kd_pos self;
     kp_att := v;
     kd_att := kd_att self;
     f_to_TM := f_to_TM self;
     TM_to_f := TM_to_f self |}.

(** ** [SE3Control.update] *)

Section Update.

(** The two conversions of [scipy.spatial.transform.Rotation] are library
    code: [Rotation.from_quat(q).as_matrix()] and
    [Rotation.from_matrix(M).as_quat()].  Either may raise. *)
Variable Rotation_from_quat_as_matrix : quat -> result matF.
Variable Rotation_from_matrix_as_quat : matF -> result quat.

Section Step.
Variable self : SE3Control.
Variable state : VehicleState.
Variable flat_output : FlatOutput.

Definition pos_err : vecF := vsub (st_x state) (fo_x flat_output).
Definition dpos_err : vecF := vsub (st_v state) (fo_x_dot flat_output).

Definition F_des : vecF :=
  vscale (Fin (mass self))
    (vadd (vadd (vsub (vmul (vneg (vfin (kp_pos self))) pos_err)
                      (vmul (vfin (kd_pos self)) dpos_err))
                (fo_x_ddot flat_output))
          (V3 (Fin 0) (Fin 0) (Fin (g self)))).

(** The part of the step after [R] has been obtained. *)
Section Attitude.
Variable R : matF.

Definition b3 : vecF := matvec3 R (vfin e3).
Definition u1 : float64 := dot3 F_des b3.

Definition b3_des : vecF := normalize F_des.
Definition yaw_des : float64 := fo_yaw flat_output.
Definition c1_des : vecF := V3 (fcos yaw_des) (fsin yaw_des) (Fin 0).
Definition b2_des : vecF := normalize (fcross b3_des c1_des).
Definition b1_des : vecF := fcross b2_des b3_des.
Definition R_des : matF := transpose3 (V3 b1_des b2_des b3_des).

Definition S_err : matF :=
  mscale (Fin 0.5)
    (msub (matmul3 (transpose3 R_des) R) (matmul3 (transpose3 R) R_des)).
Definition att_err : vecF := vee_map S_err.

Definition w_des : vecF := V3 (Fin 0) (Fin 0) (fo_yaw_dot flat_output).
Definition w_err : vecF := vsub (st_w state) w_des.

Definition u2 : vecF :=
  matvec3 (mfin (inertia self))
    (vsub (vscale (- Fin (kp_att self))%f64 att_err)
          (vscale (Fin (kd_att self)) w_err)).

Definition TM : list float64 := [u1; v0 u2; v1 u2; v2 u2].
End Attitude.
End Step.

(** The command [update] returns, from the attributes of the instance and
    the arguments of the call. *)
Definition update (self : SE3Control) (t : float64)
           (state : VehicleState) (flat_output : FlatOutput)
  : result ControlCommand :=
  R <- Rotation_from_quat_as_matrix (st_q state) ;;
  cmd_motor_forces <- np_matvec (TM_to_f self) (TM self state flat_output R) ;;
  let cmd_motor_speeds := map (motor_speed (k_eta self)) cmd_motor_forces in
  q <- Rotation_from_matrix_as_quat (R_des self state flat_output) ;;
  Ok {| cmd_motor_speeds := cmd_motor_speeds;
        cmd_thrust := u1 self state flat_output R;
        cmd_moment := u2 self state flat_output R;
        cmd_q := q |}.

(** [update] as it runs on the instance: the body of lines 108-153,
    statement by statement.  Every [self.x] is an attribute read; the three
    calls that may raise are the two conversions and the product
    [self.TM_to_f @ TM]; the body holds no assignment to an attribute and
    no in-place array operation. *)
Definition update_method (t : float64)
           (state : VehicleState) (flat_output : FlatOutput)
  : Method ControlCommand :=
  let pos_err := vsub (st_x state) (fo_x flat_output) in
  let dpos_err := vsub (st_v state) (fo_x_dot flat_output) in
  self_mass <~ getattr mass ;;
  self_kp_pos <~ getattr kp_pos ;;
  self_kd_pos <~ getattr kd_pos ;;
  self_g <~ getattr g ;;
  let F_des :=
    vscale (Fin self_mass)
      (vadd (vadd (vsub (vmul (vneg (vfin self_kp_pos)) pos_err)
                        (vmul (vfin self_kd_pos) dpos_err))
                  (fo_x_ddot flat_output))
            (V3 (Fin 0) (Fin 0) (Fin self_g))) in
  R <~ call (Rotation_from_quat_as_matrix (st_q state)) ;;
  let b3 := matvec3 R (vfin e3) in
  let u1 := dot3 F_des b3 in
  let b3_des := normalize F_des in
  let yaw_des := fo_yaw flat_output in
  let c1_des := V3 (fcos yaw_des) (fsin yaw_des) (Fin 0) in
  let b2_des := normalize (fcross b3_des c1_des) in
  let b1_des := fcross b2_des b3_des in
  let R_des := transpose3 (V3 b1_des b2_des b3_des) in
  let S_err :=
    mscale (Fin 0.5)
      (msub (matmul3 (transpose3 R_des) R) (matmul3 (transpose3 R) R_des)) in
  let att_err := vee_map S_err in
  let w_des := V3 (Fin 0) (Fin 0) (fo_yaw_dot flat_output) in
  let w_err := vsub (st_w state) w_des in
  self_inertia <~ getattr inertia ;;
  self_kp_att <~ getattr kp_att ;;
  self_kd_att <~ getattr kd_att ;;
  let u2 :=
    matvec3 (mfin self_inertia)
      (vsub (vscale (- Fin self_kp_att)%f64 att_err)
            (vscale (Fin self_kd_att) w_err)) in
  let TM := [u1; v0 u2; v1 u2; v2 u2] in
  self_TM_to_f <~ getattr TM_to_f ;;
  cmd_motor_forces <~ call (np_matvec self_TM_to_f TM) ;;
  self_k_eta <~ getattr k_eta ;;
  let cmd_motor_speeds := map (motor_speed self_k_eta) cmd_motor_forces in
  cmd_q <~ call (Rotation_from_matrix_as_quat R_des) ;;
  ret {| cmd_motor_speeds := cmd_motor_speeds;
         cmd_thrust := u1;
         cmd_moment := u2;
         cmd_q := cmd_q |}.

(** A run of calls of [update] on one instance, oldest first: each call
    runs on the instance the call before it has left. *)
Fixpoint run_updates (self : SE3Control)
         (calls : list (float64 * VehicleState * FlatOutput))
  : list (result ControlCommand) * SE3Control :=
  match calls with
  | [] => ([], self)
  | (t, state, flat_output) :: rest =>
      let (out, self') := update_method t state flat_output self in
      let (outs, self'') := run_updates self' rest in
      (out :: outs, self'')
  end.

End Update.

(** * Notions used by the statements *)

(** The shape (4, 4), and a 4 x 4 array by its entries. *)
Definition shape44 (M : matrix) : Prop :=
  length M = 4%nat /\ Forall (fun r => length r = 4%nat) M.

Definition mat4 (a b c d e f g h i j k l m n o p : R) : matrix :=
  [[a; b; c; d]; [e; f; g; h]; [i; j; k; l]; [m; n; o; p]].

(** A two-dimensional array is invertible when it is square and has a
    two-sided inverse of its own shape. *)
Definition invertible (M : matrix) : Prop :=
  is_square M = true /\
  exists M' : matrix,
    length M' = length M /\ Forall (fun r => length r = length M) M' /\
    matmul M M' = identity (length M) /\ matmul M' M = identity (length M).

(** Rows 1 and 2 of the allocation matrix: one entry per rotor, in the
    iteration order of [rotor_pos]. *)
Definition arm_row (j : vec3 R -> R) (pos : list (string * vec3 R)) : list R :=
  map (fun kv => j (cross (snd kv) e3)) pos.

(** Position of rotor [i] in the iteration order of [rotor_pos]. *)
Definition rotor_position (pos : list (string * vec3 R)) (i : nat) : vec3 R :=
  snd (nth i pos (EmptyString, V3 0 0 0)).

(** The inertia tensor assembled by the constructor. *)
Definition inertia_of (qp : quad_params) : vec3 (vec3 R) :=
  V3 (V3 (qp_Ixx qp) (qp_Ixy qp) (qp_Ixz qp))
     (V3 (qp_Ixy qp) (qp_Iyy qp) (qp_Iyz qp))
     (V3 (qp_Ixz qp) (qp_Iyz qp) (qp_Izz qp)).

Definition rdot (a b : vec3 R) : R := v0 a * v0 b + v1 a * v1 b + v2 a * v2 b.

Definition positive_definite (J : vec3 (vec3 R)) : Prop :=
  forall u : vec3 R, u <> V3 0 0 0 -> 0 < rdot u (vmap (fun r => rdot r u) J).

(** Euclidean norm of three reals. *)
Definition rnorm (a b c : R) : R := sqrt (a * a + b * b + c * c).

Definition nan3 : vecF := V3 NaN NaN NaN.
Definition nan33 : matF := V3 nan3 nan3 nan3.

Definition diag3 (a b c : R) : vec3 (vec3 R) :=
  V3 (V3 a 0 0) (V3 0 b 0) (V3 0 0 c).

(** The skew-symmetric matrix of a 3-vector, as the specification words it:
    [S[0,1] = -v_z], [S[0,2] = v_y], [S[1,2] = -v_x], [S = -S^T], zero
    diagonal.  The source only holds its inverse, [vee_map]. *)
Definition skew (a : vecF) : matF :=
  V3 (V3 (Fin 0) (- v2 a)%f64 (v1 a))
     (V3 (v2 a) (Fin 0) (- v0 a)%f64)
     (V3 (- v1 a)%f64 (v0 a) (Fin 0)).

(** ** Library conversions for concrete runs

    The textbook conversions between quaternions [i, j, k, w] and rotation
    matrices: normalise, then expand; and the four-branch extraction of a
    quaternion from a matrix.  The theorems on [update] hold for any pair of
    conversions; these two serve where a concrete run is needed. *)

Definition fis_zero (a : float64) : bool :=
  match a with
  | Fin x => if Req_dec_T x 0 then true else false
  | NaN => false
  end.

Definition fltb (a b : float64) : bool :=
  match a, b with
  | Fin x, Fin y => if Rlt_dec x y then true else false
  | _, _ => false
  end.

Definition quat_norm (q : quat) : float64 :=
  fsqrt (qi q * qi q + qj q * qj q + qk q * qk q + qw q * qw q)%f64.

Definition quat_normalize (q : quat) : quat :=
  let n := quat_norm q in
  Quat (qi q / n)%f64 (qj q / n)%f64 (qk q / n)%f64 (qw q / n)%f64.

Definition quat_as_matrix (q : quat) : result matF :=
  if fis_zero (quat_norm q) then Err ValueError
  else
    let u := quat_normalize q in
    let x := qi u in
    let y := qj u in
    let z := qk u in
    let w := qw u in
    let two := Fin 2 in
    Ok (V3 (V3 (x * x - y * y - z * z + w * w) (two * (x * y - z * w))
               (two * (x * z + y * w)))
           (V3 (two * (x * y + z * w)) (- (x * x) + y * y - z * z + w * w)
               (two * (y * z - x * w)))
           (V3 (two * (x * z - y * w)) (two * (y * z + x * w))
               (- (x * x) - y * y + z * z + w * w)))%f64.

(** Index of the first largest of four entries. *)
Definition argmax4 (d0 d1 d2 d3 : float64) : nat :=
  let i1 := if fltb d0 d1 then 1%nat else 0%nat in
  let m1 := if fltb d0 d1 then d1 else d0 in
  let i2 := if fltb m1 d2 then 2%nat else i1 in
  let m2 := if fltb m1 d2 then d2 else m1 in
  if fltb m2 d3 then 3%nat else i2.

Definition matrix_as_quat (M : matF) : result quat :=
  let m00 := v0 (v0 M) in let m01 := v1 (v0 M) in let m02 := v2 (v0 M) in
  let m10 := v0 (v1 M) in let m11 := v1 (v1 M) in let m12 := v2 (v1 M) in
  let m20 := v0 (v2 M) in let m21 := v1 (v2 M) in let m22 := v2 (v2 M) in
  let t := (m00 + m11 + m22)%f64 in
  let one := Fin 1 in
  let two := Fin 2 in
  Ok (quat_normalize
        match argmax4 m00 m11 m22 t with
        | 0%nat => Quat (one - t + two * m00) (m10 + m01) (m20 + m02) (m21 - m12)
        | 1%nat => Quat (m01 + m10) (one - t + two * m11) (m21 + m12) (m02 - m20)
        | 2%nat => Quat (m02 + m20) (m12 + m21) (one - t + two * m22) (m10 - m01)
        | _ => Quat (m21 - m12) (m02 - m20) (m10 - m01) (one + t)
        end%f64).

(** ** Concrete vehicles *)

(** Four rotors on the corners of a square, arms of 0.1 m along each axis,
    [k_eta = 1e-6] and [k_m = 1e-7]. *)
Definition quad4 : quad_params :=
  {| qp_mass := 0.03;
     qp_Ixx := 1.43e-5; qp_Iyy := 1.43e-5; qp_Izz := 2.89e-5;
     qp_Ixy := 0; qp_Ixz := 0; qp_Iyz := 0;
     qp_c_Dx := 0; qp_c_Dy := 0; qp_c_Dz := 0;
     qp_num_rotors := 4;
     qp_rotor_pos := [("r1"%string, V3 0.1 0.1 0); ("r2"%string, V3 (-0.1) 0.1 0);
                      ("r3"%string, V3 (-0.1) (-0.1) 0); ("r4"%string, V3 0.1 (-0.1) 0)];
     qp_rotor_speed_min := 0; qp_rotor_speed_max := 2500;
     qp_k_eta := 1e-6; qp_k_m := 1e-7; qp_k_d := 0; qp_k_z := 0; qp_k_flap := 0;
     qp_tau_m := 0.005 |}.

(** The same parameters with other mass and inertia entries. *)
Definition with_inertial (qp : quad_params)
           (m ixx iyy izz ixy ixz iyz : R) : quad_params :=
  {| qp_mass := m;
     qp_Ixx := ixx; qp_Iyy := iyy; qp_Izz := izz;
     qp_Ixy := ixy; qp_Ixz := ixz; qp_Iyz := iyz;
     qp_c_Dx := qp_c_Dx qp; qp_c_Dy := qp_c_Dy qp; qp_c_Dz := qp_c_Dz qp;
     qp_num_rotors := qp_num_rotors qp;
     qp_rotor_pos := qp_rotor_pos qp;
     qp_rotor_speed_min := qp_rotor_speed_min qp;
     qp_rotor_speed_max := qp_rotor_speed_max qp;
     qp_k_eta := qp_k_eta qp; qp_k_m := qp_k_m qp; qp_k_d := qp_k_d qp;
     qp_k_z := qp_k_z qp; qp_k_flap := qp_k_flap qp;
     qp_tau_m := qp_tau_m qp |}.

(** The same parameters with another rotor count and layout. *)
Definition with_rotors (qp : quad_params) (n : Z)
           (pos : list (string * vec3 R)) : quad_params :=
  {| qp_mass := qp_mass qp;
     qp_Ixx := qp_Ixx qp; qp_Iyy := qp_Iyy qp; qp_Izz := qp_Izz qp;
     qp_Ixy := qp_Ixy qp; qp_Ixz := qp_Ixz qp; qp_Iyz := qp_Iyz qp;
     qp_c_Dx := qp_c_Dx qp; qp_c_Dy := qp_c_Dy qp; qp_c_Dz := qp_c_Dz qp;
     qp_num_rotors := n;
     qp_rotor_pos := pos;
     qp_rotor_speed_min := qp_rotor_speed_min qp;
     qp_rotor_speed_max := qp_rotor_speed_max qp;
     qp_k_eta := qp_k_eta qp; qp_k_m := qp_k_m qp; qp_k_d := qp_k_d qp;
     qp_k_z := qp_k_z qp; qp_k_flap := qp_k_flap qp;
     qp_tau_m := qp_tau_m qp |}.

(** [quad4] with a mass of -1 kg and an inertia tensor of zeros. *)
Definition quad4_unphysical : quad_params := with_inertial quad4 (-1) 0 0 0 0 0 0.

(** Four rotors stacked at one point: the moment-arm rows are multiples of
    the row of ones. *)
Definition quad4_stacked : quad_params :=
  with_rotors quad4 4
    [("r1"%string, V3 0.1 0 0); ("r2"%string, V3 0.1 0 0);
     ("r3"%string, V3 0.1 0 0); ("r4"%string, V3 0.1 0 0)].

(** Four rotors on the line y = 10 - 3x, and their positions as doubles. *)
Definition quad4_line : quad_params :=
  with_rotors quad4 4
    [("r1"%string, V3 1 7 0); ("r2"%string, V3 2 4 0);
     ("r3"%string, V3 3 1 0); ("r4"%string, V3 4 (-2) 0)].

Definition line_pos_b64 : list (b64 * b64 * b64) :=
  [(1, 7, 0); (2, 4, 0); (3, 1, 0); (4, -2, 0)]%float.

(** The coefficients [k_eta = 1e-6] and [k_m = 1e-7] of [quad4] as the
    doubles nearest to them, and the positions of [quad4] and of
    [quad4_stacked] as doubles. *)
Definition k_eta_b64 : b64 := 1e-6%float.
Definition k_m_b64 : b64 := 1e-7%float.

Definition quad4_pos_b64 : list (b64 * b64 * b64) :=
  [(0.1, 0.1, 0); (-0.1, 0.1, 0); (-0.1, -0.1, 0); (0.1, -0.1, 0)]%float.

Definition stacked_pos_b64 : list (b64 * b64 * b64) :=
  [(0.1, 0, 0); (0.1, 0, 0); (0.1, 0, 0); (0.1, 0, 0)]%float.

(** A hexarotor: six rotors on a circle of radius 0.2 m (coordinates
    rounded). *)
Definition hexa6 : quad_params :=
  with_rotors quad4 6
    [("r1"%string, V3 0.2 0 0); ("r2"%string, V3 0.1 0.173 0);
     ("r3"%string, V3 (-0.1) 0.173 0); ("r4"%string, V3 (-0.2) 0 0);
     ("r5"%string, V3 (-0.1) (-0.173) 0); ("r6"%string, V3 0.1 (-0.173) 0)].

(** Three rotors. *)
Definition tri3 : quad_params :=
  with_rotors quad4 3
    [("r1"%string, V3 0.2 0 0); ("r2"%string, V3 (-0.1) 0.173 0);
     ("r3"%string, V3 (-0.1) (-0.173) 0)].

(** The allocation matrices line 63 builds for [quad4] and [quad4_stacked],
    entry by entry as the program computes them. *)
Definition quad4_matrix : matrix :=
  [[1; 1; 1; 1];
   [0.1 * 1 - 0 * 0; 0.1 * 1 - 0 * 0; -0.1 * 1 - 0 * 0; -0.1 * 1 - 0 * 0];
   [0 * 0 - 0.1 * 1; 0 * 0 - -0.1 * 1; 0 * 0 - -0.1 * 1; 0 * 0 - 0.1 * 1];
   [1e-7 / 1e-6 * 1; 1e-7 / 1e-6 * -1; 1e-7 / 1e-6 * 1; 1e-7 / 1e-6 * -1]].

Definition quad4_stacked_matrix : matrix :=
  [[1; 1; 1; 1];
   [0 * 1 - 0 * 0; 0 * 1 - 0 * 0; 0 * 1 - 0 * 0; 0 * 1 - 0 * 0];
   [0 * 0 - 0.1 * 1; 0 * 0 - 0.1 * 1; 0 * 0 - 0.1 * 1; 0 * 0 - 0.1 * 1];
   [1e-7 / 1e-6 * 1; 1e-7 / 1e-6 * -1; 1e-7 / 1e-6 * 1; 1e-7 / 1e-6 * -1]].

(** ** Concrete per-step inputs *)

(** At rest at the origin with orientation [q]. *)
Definition state0 (q : quat) : VehicleState :=
  {| st_x := zero3; st_v := zero3; st_q := q; st_w := zero3 |}.

(** Hold the origin at yaw 0 with feed-forward acceleration [acc]. *)
Definition flat0 (acc : vecF) : FlatOutput :=
  {| fo_x := zero3; fo_x_dot := zero3; fo_x_ddot := acc;
     fo_x_dddot := zero3; fo_x_ddddot := zero3;
     fo_yaw := Fin 0; fo_yaw_dot := Fin 0 |}.

(** Level, and rolled by half a turn about the body x axis. *)
Definition q_identity : quat := Quat (Fin 0) (Fin 0) (Fin 0) (Fin 1).
Definition q_flip_x : quat := Quat (Fin 1) (Fin 0) (Fin 0) (Fin 0).

(** Feed-forward acceleration of a free fall: minus [g] along z. *)
Definition free_fall : vecF := V3 (Fin 0) (Fin 0) (Fin (- 9.81)).

(** * Notions used by the further properties *)

(** The four rows line 63 stacks, for the parameters [qp]. *)
Definition allocation_matrix (qp : quad_params) : matrix :=
  [repeat 1 (Z.to_nat (qp_num_rotors qp));
   arm_row (@v0 R) (qp_rotor_pos qp);
   arm_row (@v1 R) (qp_rotor_pos qp);
   map (fun i => qp_k_m qp / qp_k_eta qp * IZR ((-1) ^ i))
       (range (qp_num_rotors qp))].



(** Rotor positions whose horizontal projections lie on one line. *)
Definition collinear_xy (pos : list (string * vec3 R)) : Prop :=
  exists x0 y0 dx dy : R,
    Forall (fun kv => exists t : R,
                v0 (snd kv) = x0 + t * dx /\ v1 (snd kv) = y0 + t * dy) pos.

(** Four rotors on the corners of a square of half-side [d], numbered
    counter-clockwise from the corner (d, d), with coefficients [keta] and
    [km]; the other parameters are those of [quad4]. *)
Definition xquad (d keta km : R) : quad_params :=
  {| qp_mass := qp_mass quad4;
     qp_Ixx := qp_Ixx quad4; qp_Iyy := qp_Iyy quad4; qp_Izz := qp_Izz quad4;
     qp_Ixy := 0; qp_Ixz := 0; qp_Iyz := 0;
     qp_c_Dx := 0; qp_c_Dy := 0; qp_c_Dz := 0;
     qp_num_rotors := 4;
     qp_rotor_pos := [("r1"%string, V3 d d 0); ("r2"%string, V3 (- d) d 0);
                      ("r3"%string, V3 (- d) (- d) 0); ("r4"%string, V3 d (- d) 0)];
     qp_rotor_speed_min := 0; qp_rotor_speed_max := 2500;
     qp_k_eta := keta; qp_k_m := km; qp_k_d := 0; qp_k_z := 0; qp_k_flap := 0;
     qp_tau_m := 0.005 |}.


(** [M @ a] for a real 3 x 3 array and a real 3-vector. *)
Definition rmatvec (M : vec3 (vec3 R)) (a : vec3 R) : vec3 R :=
  vmap (fun r => rdot r a) M.

(** Two entries of [rotor_pos] with the same horizontal position. *)
Definition same_xy (kv kv' : string * vec3 R) : Prop :=
  v0 (snd kv) = v0 (snd kv') /\ v1 (snd kv) = v1 (snd kv').

(** Further concrete inputs: a feed-forward acceleration that cancels
    gravity and pushes along x; the rotors of [quad4] raised by 5 cm; and
    [quad4] with a mass of 2 kg. *)
Definition push_x : vecF := V3 (Fin 1) (Fin 0) (Fin (- 9.81)).

Definition quad4_raised_pos : list (string * vec3 R) :=
  [("r1"%string, V3 0.1 0.1 0.05); ("r2"%string, V3 (-0.1) 0.1 0.05);
   ("r3"%string, V3 (-0.1) (-0.1) 0.05); ("r4"%string, V3 0.1 (-0.1) 0.05)].


(** * Properties of the constructor *)

(** ** Results *)

Lemma bind_ok {A B : Type} (r : result A) (k : A -> result B) (b : B) :
  bind r k = Ok b -> exists a, r = Ok a /\ k a = Ok b.
Proof.
  destruct r as [a|e|]; simpl; intro H;
    [exists a; auto | discriminate | discriminate].
Qed.

Ltac bind_inv H :=
  let a := fresh "a" in
  let Ha := fresh "H" a in
  apply bind_ok in H; destruct H as [a [Ha H]].

(** ** The 4 x 4 inverse *)

Lemma dot4_over (D t a b c d c1 c2 c3 c4 : R) :
  D <> 0 ->
  a * c1 + b * c2 + c * c3 + d * c4 = t * D ->
  a * (c1 / D) + (b * (c2 / D) + (c * (c3 / D) + (d * (c4 / D) + 0))) = t.
Proof.
  intros HD H.
  replace (a * (c1 / D) + (b * (c2 / D) + (c * (c3 / D) + (d * (c4 / D) + 0))))
    with ((a * c1 + b * c2 + c * c3 + d * c4) / D) by (field; exact HD).
  rewrite H. field. exact HD.
Qed.

Lemma dot4_over_l (D t a b c d c1 c2 c3 c4 : R) :
  D <> 0 ->
  c1 * a + c2 * b + c3 * c + c4 * d = t * D ->
  c1 / D * a + (c2 / D * b + (c3 / D * c + (c4 / D * d + 0))) = t.
Proof.
  intros HD H.
  replace (c1 / D * a + (c2 / D * b + (c3 / D * c + (c4 / D * d + 0))))
    with ((c1 * a + c2 * b + c3 * c + c4 * d) / D) by (field; exact HD).
  rewrite H. field. exact HD.
Qed.

Ltac unfold_mat :=
  cbv [matmul adjugate_over_det identity unit_row repeat ncols length seq map
       col nth dotl combine fold_right fst snd cofactor det minor remove_nth
       sign_pow Nat.even Nat.add Nat.pred] in *.

Lemma adjugate_right a b c d e f g h i j k l m n o p :
  let M := mat4 a b c d e f g h i j k l m n o p in
  det 4 M <> 0 ->
  matmul M (adjugate_over_det 4 M) = identity 4.
Proof.
  intros M H. unfold M, mat4 in *. unfold_mat.
  match type of H with ?d <> 0 => set (D := d) in * end.
  repeat (f_equal; try (apply dot4_over; [exact H | subst D; ring])).
Qed.

Lemma adjugate_left a b c d e f g h i j k l m n o p :
  let M := mat4 a b c d e f g h i j k l m n o p in
  det 4 M <> 0 ->
  matmul (adjugate_over_det 4 M) M = identity 4.
Proof.
  intros M H. unfold M, mat4 in *. unfold_mat.
  match type of H with ?d <> 0 => set (D := d) in * end.
  repeat (f_equal; try (apply dot4_over_l; [exact H | subst D; ring])).
Qed.

Lemma det4_matmul a b c d e f g h i j k l m n o p
      a' b' c' d' e' f' g' h' i' j' k' l' m' n' o' p' :
  det 4 (matmul (mat4 a b c d e f g h i j k l m n o p)
                (mat4 a' b' c' d' e' f' g' h' i' j' k' l' m' n' o' p'))
  = det 4 (mat4 a b c d e f g h i j k l m n o p)
    * det 4 (mat4 a' b' c' d' e' f' g' h' i' j' k' l' m' n' o' p').
Proof. unfold mat4. unfold_mat. ring. Qed.

Lemma det4_identity : det 4 (identity 4) = 1.
Proof. unfold_mat. ring. Qed.

(** A list of known length is its entries. *)
Lemma length4 {A : Type} (l : list A) :
  length l = 4%nat -> exists a b c d, l = [a; b; c; d].
Proof.
  destruct l as [|a [|b [|c [|d [|? ?]]]]]; simpl; intro H; try discriminate.
  exists a, b, c, d; reflexivity.
Qed.

Lemma shape44_mat4 (M : matrix) :
  shape44 M ->
  exists a b c d e f g h i j k l m n o p,
    M = mat4 a b c d e f g h i j k l m n o p.
Proof.
  intros [HM HF].
  destruct (length4 M HM) as (r0 & r1 & r2 & r3 & ->).
  inversion HF as [|? ? H0 HF1]; subst.
  inversion HF1 as [|? ? H1 HF2]; subst.
  inversion HF2 as [|? ? H2 HF3]; subst.
  inversion HF3 as [|? ? H3 _]; subst.
  destruct (length4 r0 H0) as (a & b & c & d & ->).
  destruct (length4 r1 H1) as (e & f & g & h & ->).
  destruct (length4 r2 H2) as (i & j & k & l & ->).
  destruct (length4 r3 H3) as (m & n & o & p & ->).
  exists a, b, c, d, e, f, g, h, i, j, k, l, m, n, o, p; reflexivity.
Qed.

Lemma is_square_4 (M : matrix) :
  length M = 4%nat -> (is_square M = true <-> shape44 M).
Proof.
  intro HM. unfold is_square, shape44. rewrite HM, forallb_forall, Forall_forall.
  split.
  - intro H; split; [reflexivity|]. intros r Hr. apply Nat.eqb_eq, H, Hr.
  - intros [_ H] r Hr. apply Nat.eqb_eq, H, Hr.
Qed.

Lemma shape44_adjugate (M : matrix) : shape44 (adjugate_over_det 4 M).
Proof.
  split; [reflexivity|]. unfold adjugate_over_det. simpl.
  repeat constructor.
Qed.

(** [np.linalg.inv] on an array with four rows. *)
Lemma np_linalg_inv_4 (M : matrix) :
  length M = 4%nat ->
  np_linalg_inv M =
    if is_square M then
      if existsb zero_row M then Err (LinAlgError Singular)
      else if Req_dec_T (det 4 M) 0 then Undetermined
      else Ok (adjugate_over_det 4 M)
    else Err (LinAlgError NotSquare).
Proof. intro H. unfold np_linalg_inv. rewrite H. reflexivity. Qed.

Lemma np_linalg_inv_4_ok (M M' : matrix) :
  length M = 4%nat ->
  np_linalg_inv M = Ok M' ->
  shape44 M /\ shape44 M' /\ det 4 M <> 0 /\
  matmul M M' = identity 4 /\ matmul M' M = identity 4.
Proof.
  intros HM H. rewrite (np_linalg_inv_4 M HM) in H.
  destruct (is_square M) eqn:Hsq; [|discriminate].
  destruct (existsb zero_row M); [discriminate|].
  destruct (Req_dec_T (det 4 M) 0) as [|Hd]; [discriminate|].
  injection H as <-.
  apply (is_square_4 M HM) in Hsq.
  destruct (shape44_mat4 Hsq)
    as (a & b & c & d & e & f & g & h & i & j & k & l & m & n & o & p & ->).
  repeat split; try (apply Hsq); try exact Hd.
  - apply shape44_adjugate.
  - apply adjugate_right, Hd.
  - apply adjugate_left, Hd.
Qed.

Lemma zero_row_spec (r : list R) :
  zero_row r = true <-> Forall (fun x => x = 0) r.
Proof.
  unfold zero_row. rewrite forallb_forall, Forall_forall.
  split; intros H x Hx; specialize (H x Hx).
  - destruct (Req_dec_T x 0); [assumption | discriminate].
  - destruct (Req_dec_T x 0); [reflexivity | contradiction].
Qed.

Ltac zero_entries H :=
  apply zero_row_spec in H;
  repeat match goal with
         | H' : Forall _ (_ :: _) |- _ => inversion H'; clear H'; subst
         end.

(** An array with a row of zeros has a zero determinant. *)
Lemma zero_row_det4 (M : matrix) :
  shape44 M -> existsb zero_row M = true -> det 4 M = 0.
Proof.
  intros Hsh H.
  destruct (shape44_mat4 Hsh)
    as (a & b & c & d & e & f & g & h & i & j & k & l & m & n & o & p & ->).
  unfold mat4 in *. cbn [existsb] in H.
  apply orb_true_iff in H. destruct H as [H|H];
    [zero_entries H; unfold_mat; ring|].
  apply orb_true_iff in H. destruct H as [H|H];
    [zero_entries H; unfold_mat; ring|].
  apply orb_true_iff in H. destruct H as [H|H];
    [zero_entries H; unfold_mat; ring|].
  apply orb_true_iff in H. destruct H as [H|H];
    [zero_entries H; unfold_mat; ring | discriminate].
Qed.

Lemma no_zero_row_4 (M : matrix) :
  shape44 M -> det 4 M <> 0 -> existsb zero_row M = false.
Proof.
  intros Hsh Hd. destruct (existsb zero_row M) eqn:Hz; [|reflexivity].
  exfalso. apply Hd, zero_row_det4; assumption.
Qed.

(** ** The forward allocation matrix *)

Lemma concat_map_singleton {A B : Type} (f : A -> B) (l : list A) :
  concat (map (fun a => [f a]) l) = map f l.
Proof. induction l as [|a l IH]; simpl; [reflexivity | now rewrite IH]. Qed.

Lemma length_range (n : Z) : length (range n) = Z.to_nat n.
Proof. unfold range. now rewrite length_map, length_seq. Qed.

Lemma nth_range (n : Z) (i : nat) (d : Z) :
  (i < Z.to_nat n)%nat -> nth i (range n) d = Z.of_nat i.
Proof.
  intro H. unfold range.
  rewrite (nth_indep _ d (Z.of_nat 0)) by (rewrite length_map, length_seq; exact H).
  rewrite map_nth, seq_nth by exact H. reflexivity.
Qed.

Lemma np_hstack_arms (pos : list (string * vec3 R)) :
  np_hstack (map (fun kv => arm_column (snd kv)) pos) =
    match pos with
    | [] => Err ValueError
    | _ :: _ => Ok [arm_row (@v0 R) pos; arm_row (@v1 R) pos]
    end.
Proof.
  destruct pos as [|kv pos]; [reflexivity|].
  unfold np_hstack, arm_row. cbn [map].
  replace (forallb _ _) with true.
  - cbn [arm_column firstn length seq map nth concat app].
    rewrite !map_map. cbn [arm_column firstn nth].
    rewrite !concat_map_singleton. reflexivity.
  - symmetry. apply forallb_forall. intros B HB.
    apply in_map_iff in HB. destruct HB as [kv' [<- _]]. reflexivity.
Qed.

(** Line 63 returns exactly when [num_rotors] is non-negative and counts the
    entries of a non-empty [rotor_pos]; the array is then the four rows
    below. *)
Lemma build_f_to_TM_ok (k : R) (n : Z) (pos : list (string * vec3 R)) (M : matrix) :
  build_f_to_TM k n pos = Ok M <->
  (0 <= n)%Z /\ pos <> [] /\ length pos = Z.to_nat n /\
  M = [repeat 1 (Z.to_nat n); arm_row (@v0 R) pos; arm_row (@v1 R) pos;
       map (fun i => k * IZR ((-1) ^ i)) (range n)].
Proof.
  unfold build_f_to_TM, np_ones_row.
  destruct (Z.ltb_spec n 0) as [Hn|Hn]; cbn [bind].
  - split; [discriminate | lia].
  - rewrite np_hstack_arms. destruct pos as [|kv pos]; cbn [bind].
    + split; [discriminate | intros (_ & H & _); congruence].
    + unfold np_vstack, yaw_row. cbn [concat app forallb].
      unfold arm_row at 1 2. rewrite !length_map, length_range, repeat_length.
      rewrite Nat.eqb_refl, !andb_true_r.
      destruct (Nat.eqb_spec (length (kv :: pos)) (Z.to_nat n)) as [E|E].
      * split.
        -- intro H. injection H as <-. repeat split; auto. discriminate.
        -- intros (_ & _ & _ & ->). reflexivity.
      * split; [discriminate | intros (_ & _ & H & _); contradiction].
Qed.

Lemma build_f_to_TM_rows (k : R) (n : Z) (pos : list (string * vec3 R)) (M : matrix) :
  build_f_to_TM k n pos = Ok M ->
  length M = 4%nat /\ Forall (fun r => length r = Z.to_nat n) M.
Proof.
  intro H. apply build_f_to_TM_ok in H. destruct H as (_ & _ & Hl & ->).
  split; [reflexivity|].
  repeat constructor; unfold arm_row;
    rewrite ?repeat_length, ?length_map, ?length_range; auto.
Qed.

(** ** What a returned constructor has done *)

Lemma init_ok (qp : quad_params) (c : SE3Control) :
  __init__ qp = Ok c ->
  qp_k_eta qp <> 0 /\
  build_f_to_TM (qp_k_m qp / qp_k_eta qp) (qp_num_rotors qp) (qp_rotor_pos qp)
    = Ok (f_to_TM c) /\
  np_linalg_inv (f_to_TM c) = Ok (TM_to_f c) /\
  mass c = qp_mass qp /\ k_eta c = qp_k_eta qp /\ k_m c = qp_k_m qp /\
  num_rotors c = qp_num_rotors qp /\ rotor_pos c = qp_rotor_pos qp /\
  g c = 9.81 /\ kp_pos c = V3 6.5 6.5 15 /\ kd_pos c = V3 4.0 4.0 9 /\
  kp_att c = 544 /\ kd_att c = 46.64 /\
  inertia c = V3 (V3 (qp_Ixx qp) (qp_Ixy qp) (qp_Ixz qp))
                 (V3 (qp_Ixy qp) (qp_Iyy qp) (qp_Iyz qp))
                 (V3 (qp_Ixz qp) (qp_Iyz qp) (qp_Izz qp)).
Proof.
  unfold __init__, py_div. intro H.
  destruct (Req_dec_T (qp_k_eta qp) 0) as [|Hk]; [discriminate|].
  cbn [bind] in H.
  bind_inv H. bind_inv H. injection H as <-. cbn.
  repeat split; auto.
Qed.

(** The constructor returns when [k_eta] is not zero, line 63 builds an
    array and that array is square with a non-zero determinant. *)
Lemma init_succeeds (qp : quad_params) (M : matrix) :
  qp_k_eta qp <> 0 ->
  build_f_to_TM (qp_k_m qp / qp_k_eta qp) (qp_num_rotors qp) (qp_rotor_pos qp)
    = Ok M ->
  is_square M = true ->
  det 4 M <> 0 ->
  exists c, __init__ qp = Ok c /\ f_to_TM c = M /\ TM_to_f c = adjugate_over_det 4 M.
Proof.
  intros Hk HM Hsq Hd. unfold __init__, py_div.
  destruct (Req_dec_T (qp_k_eta qp) 0) as [|_]; [contradiction|].
  cbn [bind]. rewrite HM. cbn [bind].
  pose proof (proj1 (build_f_to_TM_rows _ _ _ HM)) as H4.
  rewrite (np_linalg_inv_4 M H4), Hsq.
  rewrite (no_zero_row_4 (proj1 (is_square_4 M H4) Hsq) Hd).
  destruct (Req_dec_T (det 4 M) 0) as [|_]; [contradiction|].
  cbn [bind]. eexists. split; [reflexivity|]. split; reflexivity.
Qed.

Lemma init_four_rotors (qp : quad_params) (c : SE3Control) :
  __init__ qp = Ok c -> qp_num_rotors qp = 4%Z.
Proof.
  intro H. apply init_ok in H. destruct H as (_ & HM & Hinv & _).
  destruct (build_f_to_TM_rows _ _ _ HM) as [H4 HF].
  destruct (np_linalg_inv_4_ok _ H4 Hinv) as ([_ Hsh] & _).
  apply build_f_to_TM_ok in HM. destruct HM as (Hn & _ & _ & HMeq).
  rewrite HMeq in Hsh. inversion Hsh as [|? ? Hr _]; subst.
  rewrite repeat_length in Hr. lia.
Qed.

(** ** Invertible allocation matrices *)

Lemma invertible_det4 (M : matrix) :
  length M = 4%nat -> invertible M -> det 4 M <> 0.
Proof.
  intros HM [Hsq (M' & HM' & HF' & Hr & _)].
  apply (is_square_4 M HM) in Hsq. rewrite HM in *.
  destruct (shape44_mat4 Hsq)
    as (a & b & c & d & e & f & g & h & i & j & k & l & m & n & o & p & ->).
  destruct (shape44_mat4 (conj HM' HF'))
    as (a' & b' & c' & d' & e' & f' & g' & h' & i' & j' & k' & l' & m' & n'
        & o' & p' & ->).
  intro Hd.
  pose proof (det4_matmul a b c d e f g h i j k l m n o p
                a' b' c' d' e' f' g' h' i' j' k' l' m' n' o' p') as Hmul.
  rewrite Hr, det4_identity, Hd in Hmul. lra.
Qed.


(** ** The concrete vehicles *)

Lemma quad4_k_eta : qp_k_eta quad4 <> 0.
Proof. cbn. lra. Qed.

Lemma quad4_build :
  build_f_to_TM (qp_k_m quad4 / qp_k_eta quad4) (qp_num_rotors quad4)
    (qp_rotor_pos quad4) = Ok quad4_matrix.
Proof.
  apply build_f_to_TM_ok. cbn [quad4 qp_num_rotors qp_rotor_pos qp_k_m qp_k_eta].
  repeat split; try lia; try discriminate.
Qed.

Lemma quad4_det : det 4 quad4_matrix <> 0.
Proof. unfold quad4_matrix. unfold_mat. lra. Qed.

Lemma quad4_init :
  exists c, __init__ quad4 = Ok c /\ f_to_TM c = quad4_matrix
            /\ TM_to_f c = adjugate_over_det 4 quad4_matrix.
Proof.
  apply init_succeeds.
  - exact quad4_k_eta.
  - exact quad4_build.
  - reflexivity.
  - exact quad4_det.
Qed.

Lemma nth_arm_row (j : vec3 R -> R) (pos : list (string * vec3 R)) (i : nat) :
  (i < length pos)%nat ->
  nth i (arm_row j pos) 0 = j (cross (rotor_position pos i) e3).
Proof.
  intro H. unfold arm_row, rotor_position.
  rewrite (nth_indep _ 0 (j (cross (snd (EmptyString, V3 0 0 0)) e3)))
    by (rewrite length_map; exact H).
  apply (map_nth (fun kv => j (cross (snd kv) e3))).
Qed.

(** * The claims on the constructor *)

(** C4.  For vehicle parameters with N rotors (N at least 1, one position
    per rotor, [k_eta] not zero) line 63 builds a 4 x N array: row 0 is N
    ones; rows 1 and 2 hold, for rotor i, the x and y components of the cross
    product of its position with [0,0,1]; entry i of row 3 is
    (k_m/k_eta) * (-1)^i, counting from 0.  It is the [f_to_TM] of every
    controller the constructor returns. *)
Theorem f_to_TM_layout (qp : quad_params) :
  qp_k_eta qp <> 0 ->
  (0 < qp_num_rotors qp)%Z ->
  length (qp_rotor_pos qp) = Z.to_nat (qp_num_rotors qp) ->
  let N := Z.to_nat (qp_num_rotors qp) in
  exists M : matrix,
    build_f_to_TM (qp_k_m qp / qp_k_eta qp) (qp_num_rotors qp) (qp_rotor_pos qp)
      = Ok M /\
    length M = 4%nat /\
    Forall (fun r => length r = N) M /\
    nth 0 M [] = repeat 1 N /\
    (forall i, (i < N)%nat ->
       nth i (nth 1 M []) 0 = v0 (cross (rotor_position (qp_rotor_pos qp) i) e3) /\
       nth i (nth 2 M []) 0 = v1 (cross (rotor_position (qp_rotor_pos qp) i) e3) /\
       nth i (nth 3 M []) 0 = qp_k_m qp / qp_k_eta qp * (-1) ^ i) /\
    (forall c, __init__ qp = Ok c -> f_to_TM c = M).
Proof.
  intros Hk Hn Hlen N.
  assert (Hpos : qp_rotor_pos qp <> []).
  { intro E. rewrite E in Hlen. simpl in Hlen. lia. }
  eexists. split.
  { apply build_f_to_TM_ok. repeat split; [lia | exact Hpos | exact Hlen]. }
  split; [reflexivity|]. split.
  { repeat constructor; unfold arm_row;
      rewrite ?repeat_length, ?length_map, ?length_range; auto. }
  split; [reflexivity|]. split.
  - intros i Hi. cbn [nth]. repeat split.
    + apply nth_arm_row. fold N in Hlen. lia.
    + apply nth_arm_row. fold N in Hlen. lia.
    + rewrite (nth_indep _ 0 ((fun z => qp_k_m qp / qp_k_eta qp * IZR ((-1) ^ z)) 0%Z))
        by (rewrite length_map, length_range; exact Hi).
      rewrite (map_nth (fun z => qp_k_m qp / qp_k_eta qp * IZR ((-1) ^ z))).
      rewrite nth_range by exact Hi.
      rewrite <- pow_IZR. reflexivity.
  - intros c Hc. apply init_ok in Hc. destruct Hc as (_ & HM & _).
    apply build_f_to_TM_ok in HM. destruct HM as (_ & _ & _ & ->). reflexivity.
Qed.

(** The layout on the hexarotor [hexa6]: a 4 x 6 array. *)
Lemma f_to_TM_layout_witness :
  exists M : matrix,
    build_f_to_TM (qp_k_m hexa6 / qp_k_eta hexa6) (qp_num_rotors hexa6)
      (qp_rotor_pos hexa6) = Ok M /\
    length M = 4%nat /\
    Forall (fun r => length r = 6%nat) M /\
    nth 0 M [] = repeat 1 6 /\
    (forall i, (i < 6)%nat ->
       nth i (nth 1 M []) 0 = v0 (cross (rotor_position (qp_rotor_pos hexa6) i) e3) /\
       nth i (nth 2 M []) 0 = v1 (cross (rotor_position (qp_rotor_pos hexa6) i) e3) /\
       nth i (nth 3 M []) 0 = qp_k_m hexa6 / qp_k_eta hexa6 * (-1) ^ i) /\
    (forall c, __init__ hexa6 = Ok c -> f_to_TM c = M).
Proof.
  apply (f_to_TM_layout hexa6).
  - exact quad4_k_eta.
  - reflexivity.
  - reflexivity.
Defined.




(** The two ways in which line 64 raises. *)
Lemma init_not_square (qp : quad_params) (M : matrix) :
  qp_k_eta qp <> 0 ->
  build_f_to_TM (qp_k_m qp / qp_k_eta qp) (qp_num_rotors qp) (qp_rotor_pos qp)
    = Ok M ->
  is_square M = false ->
  __init__ qp = Err (LinAlgError NotSquare).
Proof.
  intros Hk HM Hsq. unfold __init__, py_div.
  destruct (Req_dec_T (qp_k_eta qp) 0) as [|_]; [contradiction|].
  cbn [bind]. rewrite HM. cbn [bind].
  unfold np_linalg_inv. rewrite Hsq. reflexivity.
Qed.

Lemma init_zero_row (qp : quad_params) (M : matrix) :
  qp_k_eta qp <> 0 ->
  build_f_to_TM (qp_k_m qp / qp_k_eta qp) (qp_num_rotors qp) (qp_rotor_pos qp)
    = Ok M ->
  is_square M = true ->
  existsb zero_row M = true ->
  __init__ qp = Err (LinAlgError Singular).
Proof.
  intros Hk HM Hsq Hz. unfold __init__, py_div.
  destruct (Req_dec_T (qp_k_eta qp) 0) as [|_]; [contradiction|].
  cbn [bind]. rewrite HM. cbn [bind].
  unfold np_linalg_inv. rewrite Hsq, Hz. reflexivity.
Qed.

(** C3, amended.  When the allocation matrix built from the vehicle
    parameters is not square, or is square and holds a row of zeros, it is
    not invertible and [np.linalg.inv] raises [LinAlgError] inside the
    constructor: the failure is the constructor's own, and no controller
    exists on which [update] could be called. *)
Theorem degenerate_allocator_fails (qp : quad_params) (M : matrix) :
  qp_k_eta qp <> 0 ->
  build_f_to_TM (qp_k_m qp / qp_k_eta qp) (qp_num_rotors qp) (qp_rotor_pos qp)
    = Ok M ->
  is_square M = false \/ existsb zero_row M = true ->
  ~ invertible M /\
  (exists m, __init__ qp = Err (LinAlgError m)) /\
  forall c, __init__ qp <> Ok c.
Proof.
  intros Hk HM Hdeg.
  pose proof (build_f_to_TM_rows _ _ _ HM) as [H4 _].
  assert (Herr : exists m, __init__ qp = Err (LinAlgError m)).
  { destruct (is_square M) eqn:Hsq.
    - destruct Hdeg as [Hn|Hz]; [discriminate|].
      exists Singular. apply (init_zero_row qp Hk HM Hsq Hz).
    - exists NotSquare. apply (init_not_square qp Hk HM Hsq). }
  split; [|split; [exact Herr|]].
  - intro Hinv. pose proof (proj1 Hinv) as Hsq.
    destruct Hdeg as [Hn|Hz]; [congruence|].
    apply (invertible_det4 H4 Hinv).
    apply zero_row_det4; [apply (is_square_4 M H4), Hsq | exact Hz].
  - intros c Hc. destruct Herr as [m Hm]. congruence.
Qed.

Lemma quad4_stacked_build :
  build_f_to_TM (qp_k_m quad4_stacked / qp_k_eta quad4_stacked)
    (qp_num_rotors quad4_stacked) (qp_rotor_pos quad4_stacked)
  = Ok quad4_stacked_matrix.
Proof.
  apply build_f_to_TM_ok.
  cbn [quad4_stacked with_rotors quad4 qp_num_rotors qp_rotor_pos qp_k_m qp_k_eta].
  repeat split; try lia; try discriminate.
Qed.

Lemma quad4_stacked_zero_row : existsb zero_row quad4_stacked_matrix = true.
Proof.
  unfold quad4_stacked_matrix. cbn [existsb].
  apply orb_true_iff. right. apply orb_true_iff. left.
  apply zero_row_spec. repeat constructor; lra.
Qed.

(** The constructor on [quad4_stacked], whose rotors all sit on the x axis:
    the row of the moments about x is zero. *)
Lemma degenerate_allocator_fails_witness :
  ~ invertible quad4_stacked_matrix /\
  (exists m, __init__ quad4_stacked = Err (LinAlgError m)) /\
  forall c, __init__ quad4_stacked <> Ok c.
Proof.
  apply (degenerate_allocator_fails quad4_stacked quad4_k_eta quad4_stacked_build).
  right. exact quad4_stacked_zero_row.
Defined.

(** ** The factorisation on doubles *)

Lemma zero_row_head (x : R) (r : list R) : x <> 0 -> zero_row (x :: r) = false.
Proof.
  intro H. unfold zero_row. cbn [forallb].
  destruct (Req_dec_T x 0); [contradiction | reflexivity].
Qed.

Lemma quad4_line_matrix :
  allocation_matrix quad4_line
  = mat4 1 1 1 1
         7 4 1 (-2)
         (- 1) (- 2) (- 3) (- 4)
         (1e-7 / 1e-6) (- (1e-7 / 1e-6)) (1e-7 / 1e-6) (- (1e-7 / 1e-6)).
Proof.
  unfold allocation_matrix, quad4_line, mat4.
  cbn [with_rotors quad4 qp_num_rotors qp_rotor_pos qp_k_m qp_k_eta].
  change (range 4) with [0; 1; 2; 3]%Z.
  change (Z.to_nat 4) with 4%nat.
  cbn [map repeat arm_row snd cross e3 v0 v1 v2].
  change ((-1) ^ 0)%Z with 1%Z. change ((-1) ^ 1)%Z with (-1)%Z.
  change ((-1) ^ 2)%Z with 1%Z. change ((-1) ^ 3)%Z with (-1)%Z.
  repeat (f_equal; try lra).
Qed.

Lemma quad4_line_det : det 4 (allocation_matrix quad4_line) = 0.
Proof.
  rewrite quad4_line_matrix. set (k := 1e-7 / 1e-6).
  unfold mat4. unfold_mat. ring.
Qed.

Lemma quad4_line_no_zero_row :
  existsb zero_row (allocation_matrix quad4_line) = false.
Proof.
  rewrite quad4_line_matrix. unfold mat4. cbn [existsb].
  rewrite !zero_row_head by lra. reflexivity.
Qed.

Lemma quad4_line_build :
  build_f_to_TM (qp_k_m quad4_line / qp_k_eta quad4_line)
    (qp_num_rotors quad4_line) (qp_rotor_pos quad4_line)
  = Ok (allocation_matrix quad4_line).
Proof.
  apply build_f_to_TM_ok. unfold allocation_matrix.
  cbn [quad4_line with_rotors quad4 qp_num_rotors qp_rotor_pos qp_k_m qp_k_eta].
  repeat split; try lia; try discriminate.
Qed.

(** On the layouts where the real-number reading determines the outcome,
    the factorisation on doubles gives the same one: no zero pivot on
    [quad4], a zero pivot on [quad4_stacked] and on [quad4] with a
    yaw-moment coefficient of zero. *)
Lemma lu_pivots_determined_layouts :
  np_linalg_inv_raises_b64 (f_to_TM_b64 k_eta_b64 k_m_b64 quad4_pos_b64) = false /\
  np_linalg_inv_raises_b64 (f_to_TM_b64 k_eta_b64 k_m_b64 stacked_pos_b64) = true /\
  np_linalg_inv_raises_b64 (f_to_TM_b64 k_eta_b64 0%float quad4_pos_b64) = true.
Proof. repeat split; vm_compute; reflexivity. Qed.

(** C3, as stated, fails.  Four rotors on the line y = 10 - 3x: the
    allocation matrix has a zero determinant and no inverse, and holds no
    row of zeros.  On doubles the factorisation of [np.linalg.inv] goes
    through the pivots 7, -1.43, 0.4 and -1.1e-16, none of them zero, with
    either way of forming the multipliers: [np.linalg.inv] raises nothing
    and hands back an array, and the constructor returns. *)
Lemma collinear_layout_not_rejected :
  build_f_to_TM (qp_k_m quad4_line / qp_k_eta quad4_line)
    (qp_num_rotors quad4_line) (qp_rotor_pos quad4_line)
  = Ok (allocation_matrix quad4_line) /\
  ~ invertible (allocation_matrix quad4_line) /\
  __init__ quad4_line = Undetermined /\
  lu_pivots getf2_scale 4 (f_to_TM_b64 k_eta_b64 k_m_b64 line_pos_b64)
  = [7; -1.4285714285714286; 0.4; -1.1102230246251563e-16]%float /\
  lu_pivots div_scale 4 (f_to_TM_b64 k_eta_b64 k_m_b64 line_pos_b64)
  = [7; -1.4285714285714286; 0.4; -1.1102230246251565e-16]%float /\
  np_linalg_inv_raises_b64 (f_to_TM_b64 k_eta_b64 k_m_b64 line_pos_b64) = false.
Proof.
  split; [exact quad4_line_build|]. split.
  { intro Hinv.
    exact (invertible_det4 (M := allocation_matrix quad4_line) eq_refl Hinv
             quad4_line_det). }
  split.
  { unfold __init__, py_div.
    destruct (Req_dec_T (qp_k_eta quad4_line) 0) as [E|_];
      [exfalso; revert E; exact quad4_k_eta|].
    cbn [bind]. rewrite quad4_line_build. cbn [bind].
    rewrite (np_linalg_inv_4 (allocation_matrix quad4_line) eq_refl).
    rewrite quad4_line_no_zero_row.
    replace (is_square (allocation_matrix quad4_line)) with true by reflexivity.
    destruct (Req_dec_T (det 4 (allocation_matrix quad4_line)) 0) as [_|Hd];
      [reflexivity | exfalso; exact (Hd quad4_line_det)]. }
  repeat split; vm_compute; reflexivity.
Qed.

Lemma build_f_to_TM_not_square (qp : quad_params) :
  qp_k_eta qp <> 0 ->
  (0 < qp_num_rotors qp)%Z ->
  length (qp_rotor_pos qp) = Z.to_nat (qp_num_rotors qp) ->
  exists M : matrix,
    build_f_to_TM (qp_k_m qp / qp_k_eta qp) (qp_num_rotors qp) (qp_rotor_pos qp)
      = Ok M /\
    (qp_num_rotors qp <> 4%Z -> is_square M = false).
Proof.
  intros Hk Hn Hlen.
  assert (Hpos : qp_rotor_pos qp <> []).
  { intro E. rewrite E in Hlen. simpl in Hlen. lia. }
  eexists. split.
  { apply build_f_to_TM_ok. repeat split; [lia | exact Hpos | exact Hlen]. }
  intro H4. unfold is_square. cbn [forallb length].
  rewrite repeat_length.
  destruct (Nat.eqb_spec (Z.to_nat (qp_num_rotors qp)) 4) as [E|E]; [lia|].
  reflexivity.
Qed.

Lemma build_f_to_TM_determined (k : R) (n : Z) (pos : list (string * vec3 R)) :
  build_f_to_TM k n pos <> Undetermined.
Proof.
  unfold build_f_to_TM, np_ones_row.
  destruct (n <? 0)%Z; cbn [bind]; [discriminate|].
  rewrite np_hstack_arms. destruct pos as [|kv pos]; cbn [bind]; [discriminate|].
  unfold np_vstack, yaw_row. cbn [concat app].
  destruct (forallb _ _); discriminate.
Qed.

(** With a rotor count other than four the constructor raises. *)
Lemma init_wrong_count (qp : quad_params) :
  qp_num_rotors qp <> 4%Z -> exists e, __init__ qp = Err e.
Proof.
  intro Hn. destruct (__init__ qp) as [c|e|] eqn:E.
  - apply init_four_rotors in E. contradiction.
  - exists e. reflexivity.
  - exfalso. unfold __init__, py_div in E.
    destruct (Req_dec_T (qp_k_eta qp) 0) as [|_]; [discriminate|].
    cbn [bind] in E.
    destruct (build_f_to_TM (qp_k_m qp / qp_k_eta qp) (qp_num_rotors qp)
                (qp_rotor_pos qp)) as [M|e|] eqn:HM; cbn [bind] in E;
      [|discriminate|exact (build_f_to_TM_determined _ _ _ HM)].
    pose proof (build_f_to_TM_rows _ _ _ HM) as [H4 _].
    rewrite (np_linalg_inv_4 M H4) in E.
    destruct (is_square M) eqn:Hsq; [|discriminate].
    apply (is_square_4 M H4) in Hsq. destruct Hsq as [_ Hsh].
    apply build_f_to_TM_ok in HM. destruct HM as (H0 & _ & _ & HMeq).
    rewrite HMeq in Hsh. inversion Hsh as [|? ? Hr _]; subst.
    rewrite repeat_length in Hr. lia.
Qed.

(** C10.  The constructor returns only for exactly four rotors.  With any
    other rotor count it raises; when the count is positive and matches
    [rotor_pos] the 4 x N array is built and the error is the one
    [np.linalg.inv] raises on an array that is not square, whatever the rank
    of that array. *)
Theorem init_requires_four_rotors (qp : quad_params) :
  qp_num_rotors qp <> 4%Z ->
  (exists e, __init__ qp = Err e) /\
  (qp_k_eta qp <> 0 -> (0 < qp_num_rotors qp)%Z ->
   length (qp_rotor_pos qp) = Z.to_nat (qp_num_rotors qp) ->
   __init__ qp = Err (LinAlgError NotSquare)).
Proof.
  intro Hn. split.
  - apply init_wrong_count, Hn.
  - intros Hk Hpos Hlen.
    destruct (build_f_to_TM_not_square qp Hk Hpos Hlen) as (M & HM & Hsq).
    unfold __init__, py_div.
    destruct (Req_dec_T (qp_k_eta qp) 0) as [|_]; [contradiction|].
    cbn [bind]. rewrite HM. cbn [bind].
    rewrite (np_linalg_inv_4 M (proj1 (build_f_to_TM_rows _ _ _ HM))).
    rewrite (Hsq Hn). reflexivity.
Qed.

(** The constructor on the hexarotor [hexa6]. *)
Lemma init_requires_four_rotors_witness :
  (exists e, __init__ hexa6 = Err e) /\ __init__ hexa6 = Err (LinAlgError NotSquare).
Proof.
  assert (H : qp_num_rotors hexa6 <> 4%Z) by discriminate.
  destruct (init_requires_four_rotors hexa6 H) as [H1 H2].
  split; [exact H1|].
  apply H2; [exact quad4_k_eta | reflexivity | reflexivity].
Defined.

Lemma init_is_ok_inertial (qp : quad_params) (m ixx iyy izz ixy ixz iyz : R) :
  is_ok (__init__ (with_inertial qp m ixx iyy izz ixy ixz iyz)) <-> is_ok (__init__ qp).
Proof.
  unfold __init__. cbn [with_inertial qp_k_m qp_k_eta qp_num_rotors qp_rotor_pos].
  destruct (py_div (qp_k_m qp) (qp_k_eta qp)) as [k|e|];
    cbn [bind is_ok]; [|tauto|tauto].
  destruct (build_f_to_TM k (qp_num_rotors qp) (qp_rotor_pos qp)) as [M|e|];
    cbn [bind is_ok]; [|tauto|tauto].
  destruct (np_linalg_inv M) as [M'|e|]; cbn [bind is_ok]; tauto.
Qed.

Lemma zero_inertia_not_positive_definite :
  ~ positive_definite (V3 (V3 0 0 0) (V3 0 0 0) (V3 0 0 0)).
Proof.
  intro H. specialize (H (V3 1 0 0)).
  assert (Hne : V3 1 0 0 <> V3 0 0 0) by (intro E; injection E; lra).
  apply H in Hne. unfold rdot, vmap in Hne. cbn in Hne. lra.
Qed.

(** C7, as stated, fails: parameters with a mass of -1 kg and an all-zero
    inertia tensor are accepted, and the controller built carries them. *)
Lemma unphysical_parameters_accepted :
  qp_mass quad4_unphysical <= 0 /\
  ~ positive_definite (inertia_of quad4_unphysical) /\
  exists c, __init__ quad4_unphysical = Ok c /\ mass c = -1.
Proof.
  split; [cbn; lra|]. split; [exact zero_inertia_not_positive_definite|].
  destruct quad4_init as (c & Hc & _).
  assert (Hok : is_ok (__init__ quad4_unphysical)).
  { apply init_is_ok_inertial. rewrite Hc. exact I. }
  destruct (__init__ quad4_unphysical) as [c'|e|] eqn:E;
    [|contradiction|contradiction].
  exists c'. split; [reflexivity|].
  apply init_ok in E. destruct E as (_ & _ & _ & Hm & _). exact Hm.
Qed.

(** C7, amended.  The constructor raises whenever the rotor count is below
    four.  It reads mass and inertia without testing them: replacing them by
    any values never changes whether the constructor returns. *)
Theorem init_checks_rotor_count_only (qp : quad_params) :
  ((qp_num_rotors qp < 4)%Z -> exists e, __init__ qp = Err e) /\
  (forall m ixx iyy izz ixy ixz iyz : R,
      is_ok (__init__ (with_inertial qp m ixx iyy izz ixy ixz iyz))
      <-> is_ok (__init__ qp)).
Proof.
  split.
  - intro Hn. apply init_wrong_count. lia.
  - intros. apply init_is_ok_inertial.
Qed.

(** The constructor on the three-rotor vehicle [tri3]. *)
Lemma init_checks_rotor_count_only_witness :
  (qp_num_rotors tri3 < 4)%Z /\ exists e, __init__ tri3 = Err e.
Proof.
  assert (H : (qp_num_rotors tri3 < 4)%Z) by reflexivity.
  split; [exact H|].
  exact (proj1 (init_checks_rotor_count_only tri3) H).
Defined.

(** * Properties of the per-step law *)

(** ** Arithmetic on [float64] *)

Lemma lift2_nan_r (op : R -> R -> R) (a : float64) : lift2 op a NaN = NaN.
Proof. destruct a; reflexivity. Qed.

Lemma fdiv_nan_r (a : float64) : fdiv a NaN = NaN.
Proof. destruct a; reflexivity. Qed.

Lemma fdiv_fin (x y : R) : y <> 0 -> fdiv (Fin x) (Fin y) = Fin (x / y).
Proof.
  intro H. unfold fdiv. destruct (Req_dec_T y 0); [contradiction | reflexivity].
Qed.

Lemma fdiv_by_zero (a : float64) (y : R) : y = 0 -> fdiv a (Fin y) = NaN.
Proof.
  intro H. destruct a; [reflexivity|]. unfold fdiv.
  destruct (Req_dec_T y 0); [reflexivity | contradiction].
Qed.

Lemma fsqrt_fin (x : R) : 0 <= x -> fsqrt (Fin x) = Fin (sqrt x).
Proof.
  intro H. unfold fsqrt. destruct (Rlt_dec x 0); [lra | reflexivity].
Qed.

Lemma fneg_involutive (a : float64) : fneg (fneg a) = a.
Proof. destruct a; cbn; [reflexivity | now rewrite Ropp_involutive]. Qed.

Lemma Fin_eq (x y : R) : x = y -> Fin x = Fin y.
Proof. intros ->; reflexivity. Qed.

Lemma Rsign_neg (x : R) : x < 0 -> Rsign x = -1.
Proof. intro H. unfold Rsign. destruct (Rlt_dec x 0); [reflexivity | lra]. Qed.

Lemma Rsign_pos (x : R) : 0 < x -> Rsign x = 1.
Proof.
  intro H. unfold Rsign.
  destruct (Rlt_dec x 0); [lra|]. destruct (Rlt_dec 0 x); [reflexivity | lra].
Qed.

Lemma Rsign_zero : Rsign 0 = 0.
Proof.
  unfold Rsign.
  destruct (Rlt_dec 0 0); [lra|]. destruct (Rlt_dec 0 0); [lra | reflexivity].
Qed.

(** The signed square root [sign(x) * sqrt(|x|)], squared and given its sign
    back, is [x]. *)
Lemma signed_sqrt_square (x : R) :
  let s := Rsign x * sqrt (Rabs x) in
  Rsign s * (s * s) = x.
Proof.
  intro s. subst s.
  destruct (Rtotal_order x 0) as [Hx | [Hx | Hx]].
  - assert (Hs : 0 < sqrt (Rabs x)).
    { apply sqrt_lt_R0. rewrite Rabs_left by exact Hx. lra. }
    rewrite (Rsign_neg Hx).
    rewrite Rsign_neg by lra.
    replace (-1 * sqrt (Rabs x) * (-1 * sqrt (Rabs x)))
      with (sqrt (Rabs x) * sqrt (Rabs x)) by ring.
    rewrite sqrt_sqrt by apply Rabs_pos.
    rewrite Rabs_left by exact Hx. ring.
  - subst x. rewrite Rsign_zero, Rmult_0_l, Rsign_zero. ring.
  - assert (Hs : 0 < sqrt (Rabs x)).
    { apply sqrt_lt_R0. rewrite Rabs_right by lra. lra. }
    rewrite (Rsign_pos Hx).
    rewrite Rsign_pos by lra.
    replace (1 * sqrt (Rabs x) * (1 * sqrt (Rabs x)))
      with (sqrt (Rabs x) * sqrt (Rabs x)) by ring.
    rewrite sqrt_sqrt by apply Rabs_pos.
    rewrite Rabs_right by lra. ring.
Qed.

Lemma motor_speed_fin (keta f : R) :
  keta <> 0 ->
  motor_speed keta (Fin f) = Fin (Rsign (f / keta) * sqrt (Rabs (f / keta))).
Proof.
  intro Hk. unfold motor_speed. rewrite (fdiv_fin f Hk).
  cbn [fabs fsign lift1]. rewrite fsqrt_fin by apply Rabs_pos. reflexivity.
Qed.

Lemma motor_speed_nan (keta : R) : motor_speed keta NaN = NaN.
Proof. reflexivity. Qed.

Lemma fltb_lt (x y : R) : x < y -> fltb (Fin x) (Fin y) = true.
Proof. intro H. unfold fltb. destruct (Rlt_dec x y); [reflexivity | contradiction]. Qed.

Lemma fltb_nlt (x y : R) : ~ x < y -> fltb (Fin x) (Fin y) = false.
Proof. intro H. unfold fltb. destruct (Rlt_dec x y); [contradiction | reflexivity]. Qed.

Ltac unfold_f64 :=
  cbv [vscale vadd vsub vmul vneg vfin mfin vmap vzip vdivs dot3 fcross
       matvec3 matmul3 msub mscale transpose3 column vee_map zero3 e3
       fadd fsub fmul fneg lift1 lift2 v0 v1 v2].

(** ** Skew-symmetric matrices *)

Lemma skew_antisymmetric (a : vecF) :
  skew a = vmap vneg (transpose3 (skew a)).
Proof.
  destruct a as [x y z]. unfold skew, transpose3, column, vneg, vmap.
  cbn [v0 v1 v2]. rewrite !fneg_involutive.
  replace (- Fin 0)%f64 with (Fin 0) by (cbn; apply Fin_eq; ring).
  reflexivity.
Qed.

(** ** Norms and normalisation *)

Lemma norm_fin (a b c : R) : norm (V3 (Fin a) (Fin b) (Fin c)) = Fin (rnorm a b c).
Proof.
  unfold norm, dot3. cbv [v0 v1 v2 fmul fadd lift2].
  rewrite fsqrt_fin by nra. reflexivity.
Qed.

Lemma normalize_fin (a b c : R) :
  rnorm a b c <> 0 ->
  normalize (V3 (Fin a) (Fin b) (Fin c))
  = V3 (Fin (a / rnorm a b c)) (Fin (b / rnorm a b c)) (Fin (c / rnorm a b c)).
Proof.
  intro H. unfold normalize. rewrite norm_fin. unfold vdivs, vmap.
  cbn [v0 v1 v2]. rewrite !fdiv_fin by exact H. reflexivity.
Qed.

(** A vector of norm zero is normalised to not-a-number entries. *)
Lemma normalize_degenerate (a b c : R) :
  rnorm a b c = 0 ->
  normalize (V3 (Fin a) (Fin b) (Fin c)) = nan3.
Proof.
  intro H. unfold normalize. rewrite norm_fin. unfold vdivs, vmap.
  cbn [v0 v1 v2]. rewrite !fdiv_by_zero by exact H. reflexivity.
Qed.

Lemma rnorm_axis (a : R) : rnorm 0 0 a = Rabs a.
Proof.
  unfold rnorm. replace (0 * 0 + 0 * 0 + a * a) with (Rsqr a) by (unfold Rsqr; ring).
  apply sqrt_Rsqr_abs.
Qed.

Lemma rnorm_zero : rnorm 0 0 0 = 0.
Proof. rewrite rnorm_axis. apply Rabs_R0. Qed.

Lemma Rabs_self_ratio (a : R) : a <> 0 -> a * (a / Rabs a) = Rabs a.
Proof.
  intro H. destruct (Rtotal_order a 0) as [Ha | [Ha | Ha]]; [| contradiction |].
  - rewrite Rabs_left by exact Ha. field. lra.
  - rewrite Rabs_right by lra. field. lra.
Qed.

Lemma unit_ratio_sq (a : R) : a <> 0 -> (a / Rabs a) * (a / Rabs a) = 1.
Proof.
  intro H. destruct (Rtotal_order a 0) as [Ha | [Ha | Ha]]; [| contradiction |].
  - rewrite Rabs_left by exact Ha. field. lra.
  - rewrite Rabs_right by lra. field. lra.
Qed.

(** ** The allocation step *)

Lemma np_matvec_ok (M : matrix) (a : list float64) :
  shape44 M -> length a = 4%nat ->
  np_matvec M a = Ok (map (fun r => fdotl r a) M).
Proof.
  intros [_ HF] Ha. unfold np_matvec.
  replace (forallb _ M) with true; [reflexivity|].
  symmetry. apply forallb_forall. intros r Hr. rewrite Ha.
  apply Nat.eqb_eq. rewrite Forall_forall in HF. apply HF, Hr.
Qed.

Lemma init_TM_to_f_shape (qp : quad_params) (c : SE3Control) :
  __init__ qp = Ok c -> shape44 (TM_to_f c).
Proof.
  intro H. apply init_ok in H. destruct H as (_ & HM & Hinv & _).
  destruct (build_f_to_TM_rows _ _ _ HM) as [H4 _].
  apply (np_linalg_inv_4_ok _ H4 Hinv).
Qed.

Lemma fdotl_nan (a b c d : R) (u : float64) :
  fdotl [a; b; c; d] [u; NaN; NaN; NaN] = NaN.
Proof.
  unfold fdotl. cbn [combine map fold_right fst snd].
  unfold fadd, fmul. rewrite !lift2_nan_r. reflexivity.
Qed.

(** One not-a-number moment makes every rotor force, and every rotor
    speed, not-a-number. *)
Lemma degenerate_speeds (M : matrix) (u : float64) (keta : R) :
  shape44 M ->
  map (motor_speed keta) (map (fun r => fdotl r [u; NaN; NaN; NaN]) M)
  = [NaN; NaN; NaN; NaN].
Proof.
  intro Hsh.
  destruct (shape44_mat4 Hsh)
    as (a & b & c & d & e & f & g & h & i & j & k & l & m & n & o & p & ->).
  unfold mat4. cbn [map]. rewrite !fdotl_nan. reflexivity.
Qed.

(** Signed square of a rotor speed, as one entry of the arrays. *)
Lemma motor_speed_signed_square (keta f : R) :
  keta <> 0 ->
  let s := motor_speed keta (Fin f) in
  (fsign s * (s * s))%f64 = Fin (f / keta) /\
  (Fin keta * (fsign s * (s * s)))%f64 = Fin f.
Proof.
  intros Hk s. subst s. rewrite (motor_speed_fin f Hk).
  cbn [fsign fmul lift1 lift2].
  rewrite (signed_sqrt_square (f / keta)).
  split; [reflexivity|]. apply Fin_eq. field. exact Hk.
Qed.

(** ** The desired force and orientation with no error *)

(** An error array is zero exactly when the two arrays subtracted are finite
    and equal. *)
Lemma vsub_zero (a b : vecF) :
  vsub a b = zero3 <-> exists p : vec3 R, a = vfin p /\ b = vfin p.
Proof.
  destruct a as [[|a0] [|a1] [|a2]], b as [[|b0] [|b1] [|b2]];
    unfold vsub, vzip, zero3, vfin, vmap; cbn [v0 v1 v2 fsub lift2];
    (split; [intro H; try discriminate | intros [[p0 p1 p2] [Ha Hb]];
                                          cbn [v0 v1 v2] in Ha, Hb; try discriminate]).
  - injection H as H0 H1 H2. exists (V3 a0 a1 a2). cbn [v0 v1 v2].
    split; [reflexivity|]. do 1 f_equal; apply Fin_eq; lra.
  - injection Ha as -> -> ->. injection Hb as -> -> ->.
    f_equal; apply Fin_eq; ring.
Qed.

Lemma pos_err_zero (s : VehicleState) (f : FlatOutput) :
  pos_err s f = zero3 <-> exists p : vec3 R, st_x s = vfin p /\ fo_x f = vfin p.
Proof. apply vsub_zero. Qed.

Lemma dpos_err_zero (s : VehicleState) (f : FlatOutput) :
  dpos_err s f = zero3 <-> exists p : vec3 R, st_v s = vfin p /\ fo_x_dot f = vfin p.
Proof. apply vsub_zero. Qed.

Lemma F_des_hover (c : SE3Control) (s : VehicleState) (f : FlatOutput) :
  pos_err s f = zero3 -> dpos_err s f = zero3 -> fo_x_ddot f = zero3 ->
  F_des c s f = V3 (Fin 0) (Fin 0) (Fin (mass c * g c)).
Proof.
  intros Hp Hd Ha. unfold F_des. rewrite Hp, Hd, Ha.
  destruct (kp_pos c) as [p0 p1 p2], (kd_pos c) as [d0 d1 d2].
  unfold_f64. f_equal; apply Fin_eq; ring.
Qed.

(** Feed-forward acceleration that cancels gravity leaves no desired
    force. *)
Lemma F_des_free_fall (c : SE3Control) (s : VehicleState) (f : FlatOutput) :
  pos_err s f = zero3 -> dpos_err s f = zero3 ->
  fo_x_ddot f = V3 (Fin 0) (Fin 0) (Fin (- g c)) ->
  F_des c s f = zero3.
Proof.
  intros Hp Hd Ha. unfold F_des. rewrite Hp, Hd, Ha.
  destruct (kp_pos c) as [p0 p1 p2], (kd_pos c) as [d0 d1 d2].
  unfold_f64. f_equal; apply Fin_eq; ring.
Qed.

Lemma hover_b3_des (c : SE3Control) (s : VehicleState) (f : FlatOutput)
      (Rr : vec3 (vec3 R)) :
  pos_err s f = zero3 -> dpos_err s f = zero3 -> fo_x_ddot f = zero3 ->
  R_des c s f = mfin Rr ->
  mass c * g c <> 0 /\
  v2 (v2 Rr) = mass c * g c / Rabs (mass c * g c).
Proof.
  intros Hp Hd Ha HR.
  assert (Hb : b3_des c s f
               = V3 (Fin (v2 (v0 Rr))) (Fin (v2 (v1 Rr))) (Fin (v2 (v2 Rr)))).
  { apply (f_equal (fun M => column (@v2 _) M)) in HR.
    destruct Rr as [[r00 r01 r02] [r10 r11 r12] [r20 r21 r22]].
    unfold R_des, transpose3, column, mfin, vfin, vmap in HR.
    cbn [v0 v1 v2] in HR |- *. rewrite <- HR.
    destruct (b3_des c s f); reflexivity. }
  unfold b3_des in Hb. rewrite (F_des_hover c Hp Hd Ha) in Hb.
  destruct (Req_dec_T (mass c * g c) 0) as [Hz|Hnz].
  - rewrite normalize_degenerate in Hb; [discriminate|].
    rewrite rnorm_axis, Hz. apply Rabs_R0.
  - split; [exact Hnz|].
    rewrite normalize_fin in Hb.
    + rewrite rnorm_axis in Hb. injection Hb as _ _ H. symmetry. exact H.
    + rewrite rnorm_axis. apply Rabs_no_R0, Hnz.
Qed.

(** With no position, velocity or attitude error the thrust is the norm of
    the weight. *)
Lemma hover_u1 (qp : quad_params) (c : SE3Control)
      (s : VehicleState) (f : FlatOutput) (Rr : vec3 (vec3 R)) :
  __init__ qp = Ok c ->
  pos_err s f = zero3 -> dpos_err s f = zero3 -> fo_x_ddot f = zero3 ->
  R_des c s f = mfin Rr ->
  u1 c s f (mfin Rr) = Fin (Rabs (mass c) * g c).
Proof.
  intros Hinit Hp Hd Ha HR.
  destruct (hover_b3_des Hp Hd Ha HR) as [Hnz H22].
  assert (Hg : g c = 9.81) by (apply init_ok in Hinit; tauto).
  unfold u1, b3. rewrite (F_des_hover c Hp Hd Ha).
  destruct Rr as [[r00 r01 r02] [r10 r11 r12] [r20 r21 r22]].
  cbn [v0 v1 v2] in H22. unfold_f64. apply Fin_eq.
  rewrite H22.
  replace (Rabs (mass c) * g c) with (Rabs (mass c * g c)).
  - rewrite <- (Rabs_self_ratio Hnz) at 2. ring.
  - rewrite Rabs_mult. f_equal. apply Rabs_right. rewrite Hg. lra.
Qed.

Lemma hover_u2 (c : SE3Control) (s : VehicleState) (f : FlatOutput)
      (Rr : vec3 (vec3 R)) :
  R_des c s f = mfin Rr -> st_w s = zero3 -> fo_yaw_dot f = Fin 0 ->
  u2 c s f (mfin Rr) = zero3.
Proof.
  intros HR Hw Hyd.
  unfold u2, att_err, S_err, w_err, w_des. rewrite HR, Hw, Hyd.
  destruct Rr as [[r00 r01 r02] [r10 r11 r12] [r20 r21 r22]].
  destruct (inertia c) as [[i00 i01 i02] [i10 i11 i12] [i20 i21 i22]].
  unfold_f64. f_equal; apply Fin_eq; ring.
Qed.

(** The desired orientation with no position or velocity error and no
    feed-forward acceleration: a rotation by the yaw, turned upside down
    when the weight [mass * g] is negative. *)
Lemma R_des_hover (c : SE3Control) (s : VehicleState) (f : FlatOutput) (psi : R) :
  pos_err s f = zero3 -> dpos_err s f = zero3 -> fo_x_ddot f = zero3 ->
  fo_yaw f = Fin psi ->
  mass c * g c <> 0 ->
  let sg := mass c * g c / Rabs (mass c * g c) in
  R_des c s f = mfin (V3 (V3 (cos psi) (- sg * sin psi) 0)
                         (V3 (sin psi) (sg * cos psi) 0)
                         (V3 0 0 sg)).
Proof.
  intros Hp Hd Ha Hy Hnz sg.
  pose proof (unit_ratio_sq Hnz) as Hsg. fold sg in Hsg.
  pose proof (sin2_cos2 psi) as Hsc. unfold Rsqr in Hsc.
  unfold R_des, b1_des, b2_des, b3_des, c1_des, yaw_des.
  rewrite (F_des_hover c Hp Hd Ha), Hy.
  rewrite normalize_fin by (rewrite rnorm_axis; apply Rabs_no_R0, Hnz).
  rewrite rnorm_axis. fold sg.
  replace (0 / Rabs (mass c * g c)) with 0 by (unfold Rdiv; ring).
  cbv [fcross fcos fsin lift1 lift2 fmul fsub v0 v1 v2].
  assert (Hn : rnorm (0 * 0 - sg * sin psi) (sg * cos psi - 0 * 0)
                     (0 * sin psi - 0 * cos psi) = 1).
  { unfold rnorm.
    replace (_ + _ + _) with (sg * sg * (sin psi * sin psi + cos psi * cos psi))
      by ring.
    rewrite Hsg, Hsc, Rmult_1_l. apply sqrt_1. }
  rewrite normalize_fin by (rewrite Hn; lra).
  rewrite Hn.
  cbv [transpose3 column mfin vfin vmap fmul fsub lift2 v0 v1 v2].
  f_equal; f_equal; apply Fin_eq.
  all: unfold Rdiv; rewrite ?Rinv_1, ?Rmult_1_r.
  all: try ring.
  - transitivity (sg * sg * cos psi); [ring | rewrite Hsg; ring].
  - transitivity (sg * sg * sin psi); [ring | rewrite Hsg; ring].
Qed.

Lemma R_des_hover_yaw0 (c : SE3Control) (s : VehicleState) (f : FlatOutput) :
  pos_err s f = zero3 -> dpos_err s f = zero3 -> fo_x_ddot f = zero3 ->
  fo_yaw f = Fin 0 ->
  (0 < mass c * g c -> R_des c s f = mfin (diag3 1 1 1)) /\
  (mass c * g c < 0 -> R_des c s f = mfin (diag3 1 (-1) (-1))).
Proof.
  intros Hp Hd Ha Hy. split; intro Hs.
  - rewrite (R_des_hover c Hp Hd Ha Hy) by lra.
    rewrite cos_0, sin_0, Rabs_right by lra.
    set (a := mass c * g c) in *.
    unfold diag3, mfin, vfin, vmap. cbn [v0 v1 v2].
    do 2 f_equal; apply Fin_eq; field; lra.
  - rewrite (R_des_hover c Hp Hd Ha Hy) by lra.
    rewrite cos_0, sin_0, Rabs_left by lra.
    set (a := mass c * g c) in *.
    unfold diag3, mfin, vfin, vmap. cbn [v0 v1 v2].
    do 2 f_equal; apply Fin_eq; field; lra.
Qed.

(** ** The desired orientation with no desired force *)

Lemma degenerate_R_des (c : SE3Control) (s : VehicleState) (f : FlatOutput) :
  F_des c s f = zero3 -> R_des c s f = nan33.
Proof.
  intro H. unfold R_des, b1_des, b2_des, b3_des. rewrite H. unfold zero3.
  rewrite normalize_degenerate by exact rnorm_zero.
  reflexivity.
Qed.

Lemma degenerate_u2 (c : SE3Control) (s : VehicleState) (f : FlatOutput) (Rm : matF) :
  R_des c s f = nan33 -> u2 c s f Rm = nan3.
Proof.
  intro H. unfold u2, att_err, S_err. rewrite H. reflexivity.
Qed.

(** * The claims on [update] *)

Lemma Forall2_map_left {A B : Type} (P : B -> A -> Prop) (h : A -> B) (l : list A) :
  (forall a, P (h a) a) -> Forall2 P (map h l) l.
Proof. intro H. induction l; simpl; constructor; auto. Qed.

Section UpdateFacts.

Variable lib_as_matrix : quat -> result matF.
Variable lib_as_quat : matF -> result quat.

(** What a returned [update] has computed. *)
Lemma update_ok (self : SE3Control) (t : float64)
      (s : VehicleState) (f : FlatOutput) (cmd : ControlCommand) :
  update lib_as_matrix lib_as_quat self t s f = Ok cmd ->
  exists Rm forces,
    lib_as_matrix (st_q s) = Ok Rm /\
    np_matvec (TM_to_f self) (TM self s f Rm) = Ok forces /\
    lib_as_quat (R_des self s f) = Ok (cmd_q cmd) /\
    cmd_motor_speeds cmd = map (motor_speed (k_eta self)) forces /\
    cmd_thrust cmd = u1 self s f Rm /\
    cmd_moment cmd = u2 self s f Rm.
Proof.
  unfold update. intro H.
  apply bind_ok in H. destruct H as (Rm & HR & H).
  apply bind_ok in H. destruct H as (forces & HF & H).
  apply bind_ok in H. destruct H as (q & Hq & H).
  injection H as <-. exists Rm, forces. cbn. repeat split; assumption.
Qed.

(** With no error and no feed-forward acceleration, [update] returns the
    weight norm as thrust, no moment, and the allocation of that thrust. *)
Lemma hover_update (qp : quad_params) (c : SE3Control) (t : float64)
      (s : VehicleState) (f : FlatOutput) (Rr : vec3 (vec3 R)) (qd : quat) :
  __init__ qp = Ok c ->
  pos_err s f = zero3 ->
  dpos_err s f = zero3 ->
  lib_as_matrix (st_q s) = Ok (mfin Rr) ->
  R_des c s f = mfin Rr ->
  st_w s = zero3 ->
  fo_x_ddot f = zero3 ->
  fo_yaw_dot f = Fin 0 ->
  lib_as_quat (mfin Rr) = Ok qd ->
  np_matvec (TM_to_f c) (TM c s f (mfin Rr))
  = Ok (map (fun r => fdotl r [Fin (Rabs (mass c) * g c); Fin 0; Fin 0; Fin 0])
            (TM_to_f c)) /\
  update lib_as_matrix lib_as_quat c t s f =
    Ok {| cmd_motor_speeds :=
            map (motor_speed (k_eta c))
                (map (fun r => fdotl r [Fin (Rabs (mass c) * g c); Fin 0; Fin 0; Fin 0])
                     (TM_to_f c));
          cmd_thrust := Fin (Rabs (mass c) * g c);
          cmd_moment := zero3;
          cmd_q := qd |}.
Proof.
  intros Hinit Hp Hd Hlib HR Hw Ha Hyd Hq.
  pose proof (init_TM_to_f_shape qp Hinit) as Hsh.
  pose proof (hover_u1 qp Hinit Hp Hd Ha HR) as Hu1.
  pose proof (hover_u2 HR Hw Hyd) as Hu2.
  assert (HF : np_matvec (TM_to_f c) (TM c s f (mfin Rr))
               = Ok (map (fun r => fdotl r [Fin (Rabs (mass c) * g c);
                                            Fin 0; Fin 0; Fin 0]) (TM_to_f c))).
  { rewrite (np_matvec_ok _ Hsh) by reflexivity.
    unfold TM. rewrite Hu1, Hu2. reflexivity. }
  split; [exact HF|].
  unfold update. rewrite Hlib. cbn [bind]. rewrite HF. cbn [bind].
  rewrite HR, Hq. cbn [bind]. rewrite Hu1, Hu2. reflexivity.
Qed.

(** With no desired force, [update] returns not-a-number moment and rotor
    speeds. *)
Lemma degenerate_update (qp : quad_params) (c : SE3Control) (t : float64)
      (s : VehicleState) (f : FlatOutput) (Rm : matF) (qd : quat) :
  __init__ qp = Ok c ->
  F_des c s f = zero3 ->
  lib_as_matrix (st_q s) = Ok Rm ->
  lib_as_quat nan33 = Ok qd ->
  update lib_as_matrix lib_as_quat c t s f =
    Ok {| cmd_motor_speeds := [NaN; NaN; NaN; NaN];
          cmd_thrust := u1 c s f Rm;
          cmd_moment := nan3;
          cmd_q := qd |}.
Proof.
  intros Hinit HF Hlib Hq.
  pose proof (init_TM_to_f_shape qp Hinit) as Hsh.
  pose proof (degenerate_R_des HF) as HR.
  unfold update. rewrite Hlib. cbn [bind].
  rewrite (np_matvec_ok _ Hsh) by reflexivity. cbn [bind].
  rewrite HR, Hq. cbn [bind]. unfold TM.
  rewrite (degenerate_u2 Rm HR). cbn [v0 v1 v2 nan3].
  rewrite (degenerate_speeds _ _ Hsh). reflexivity.
Qed.

(** C1.  On a controller of positive mass, when position and velocity
    errors are zero, the current orientation is the desired one, the angular
    velocity is zero and the desired acceleration and yaw rate are zero,
    [update] returns [cmd_thrust = mass * g] and a zero [cmd_moment]. *)
Theorem hover_command (qp : quad_params) (c : SE3Control) (t : float64)
        (s : VehicleState) (f : FlatOutput) (Rr : vec3 (vec3 R)) (qd : quat) :
  __init__ qp = Ok c ->
  0 < mass c ->
  pos_err s f = zero3 ->
  dpos_err s f = zero3 ->
  lib_as_matrix (st_q s) = Ok (mfin Rr) ->
  R_des c s f = mfin Rr ->
  st_w s = zero3 ->
  fo_x_ddot f = zero3 ->
  fo_yaw_dot f = Fin 0 ->
  lib_as_quat (mfin Rr) = Ok qd ->
  exists cmd,
    update lib_as_matrix lib_as_quat c t s f = Ok cmd /\
    cmd_thrust cmd = Fin (mass c * g c) /\
    cmd_moment cmd = zero3.
Proof.
  intros Hinit Hm Hp Hd Hlib HR Hw Ha Hyd Hq.
  destruct (hover_update qp t Hinit Hp Hd Hlib HR Hw Ha Hyd Hq) as [_ Hu].
  eexists. split; [exact Hu|]. cbn [cmd_thrust cmd_moment].
  rewrite Rabs_right by lra. split; reflexivity.
Qed.

(** C2, amended.  [update] has no guard on a zero desired force: the
    desired orientation is then all not-a-number, every command it returns
    carries a not-a-number moment and four not-a-number rotor speeds, and
    it does return one whenever the two library conversions return. *)
Theorem degenerate_force_unguarded (qp : quad_params) (c : SE3Control)
        (t : float64) (s : VehicleState) (f : FlatOutput) :
  __init__ qp = Ok c ->
  F_des c s f = zero3 ->
  R_des c s f = nan33 /\
  (forall cmd, update lib_as_matrix lib_as_quat c t s f = Ok cmd ->
               cmd_moment cmd = nan3 /\
               cmd_motor_speeds cmd = [NaN; NaN; NaN; NaN]) /\
  (forall Rm qd, lib_as_matrix (st_q s) = Ok Rm ->
                 lib_as_quat nan33 = Ok qd ->
                 exists cmd, update lib_as_matrix lib_as_quat c t s f = Ok cmd
                             /\ cmd_q cmd = qd).
Proof.
  intros Hinit HF.
  pose proof (degenerate_R_des HF) as HR.
  split; [exact HR|]. split.
  - intros cmd Hu.
    destruct (update_ok _ _ _ _ Hu) as (Rm & forces & Hlib & Hfo & Hq & _).
    rewrite HR in Hq.
    rewrite (degenerate_update qp t Hinit HF Hlib Hq) in Hu.
    injection Hu as <-. split; reflexivity.
  - intros Rm qd Hlib Hq.
    rewrite (degenerate_update qp t Hinit HF Hlib Hq).
    eexists. split; reflexivity.
Qed.

(** C6, amended.  Each rotor speed [s] that [update] returns for a finite
    rotor force [f] of the allocation step satisfies
    [sign(s) * s^2 = f / k_eta], that is [k_eta * sign(s) * s^2 = f]. *)
Theorem speed_signed_square (qp : quad_params) (c : SE3Control) (t : float64)
        (s : VehicleState) (f : FlatOutput) (cmd : ControlCommand) :
  __init__ qp = Ok c ->
  update lib_as_matrix lib_as_quat c t s f = Ok cmd ->
  exists Rm forces,
    lib_as_matrix (st_q s) = Ok Rm /\
    np_matvec (TM_to_f c) (TM c s f Rm) = Ok forces /\
    Forall2 (fun sp force =>
               forall r, force = Fin r ->
                 (fsign sp * (sp * sp))%f64 = Fin (r / k_eta c) /\
                 (Fin (k_eta c) * (fsign sp * (sp * sp)))%f64 = Fin r)
            (cmd_motor_speeds cmd) forces.
Proof.
  intros Hinit Hu.
  assert (Hk : k_eta c <> 0).
  { destruct (init_ok qp Hinit) as (Hk & _ & _ & _ & Hkc & _). rewrite Hkc. exact Hk. }
  destruct (update_ok _ _ _ _ Hu) as (Rm & forces & Hlib & Hfo & _ & Hsp & _).
  exists Rm, forces. split; [exact Hlib|]. split; [exact Hfo|].
  rewrite Hsp. apply Forall2_map_left.
  intros force r ->. apply (motor_speed_signed_square r Hk).
Qed.

(** ** The method body and the instance *)

Lemma read_only_ret {A : Type} (a : A) : read_only (ret a).
Proof. intro self. reflexivity. Qed.

Lemma read_only_getattr {A : Type} (x : SE3Control -> A) : read_only (getattr x).
Proof. intro self. reflexivity. Qed.

Lemma read_only_call {A : Type} (r : result A) : read_only (call r).
Proof. intro self. reflexivity. Qed.

Lemma read_only_bindM {A B : Type} (m : Method A) (k : A -> Method B) :
  read_only m -> (forall a, read_only (k a)) -> read_only (bindM m k).
Proof.
  intros Hm Hk self. unfold bindM. specialize (Hm self).
  destruct (m self) as [[a|e|] self']; cbn [snd] in *; subst self';
    [apply Hk | reflexivity | reflexivity].
Qed.

(** An assignment is seen on the instance: a body that set a gain would
    not be read-only. *)
Lemma setattr_not_read_only : ~ read_only (setattr set_kp_att 0).
Proof.
  intro H. destruct quad4_init as (c & Hc & _).
  destruct (init_ok quad4 Hc)
    as (_ & _ & _ & _ & _ & _ & _ & _ & _ & _ & _ & Hkp & _).
  specialize (H c). cbn [setattr snd] in H.
  apply (f_equal kp_att) in H. cbn [set_kp_att kp_att] in H. lra.
Qed.

(** The body of [update] is made of attribute reads, library calls and
    array expressions only. *)
Lemma update_method_read_only (t : float64) (s : VehicleState) (f : FlatOutput) :
  read_only (update_method lib_as_matrix lib_as_quat t s f).
Proof.
  unfold update_method. cbv zeta.
  repeat first [ apply read_only_bindM; [|intro]
               | apply read_only_getattr
               | apply read_only_call
               | apply read_only_ret ].
Qed.

(** What the body returns is [update] of the instance it was called on. *)
Lemma update_method_value (self : SE3Control) (t : float64)
      (s : VehicleState) (f : FlatOutput) :
  fst (update_method lib_as_matrix lib_as_quat t s f self)
  = update lib_as_matrix lib_as_quat self t s f.
Proof.
  unfold update_method, update.
  cbv beta iota zeta delta [bindM getattr call ret].
  destruct (lib_as_matrix (st_q s)) as [Rm|e|]; cbn [bind fst];
    [|reflexivity|reflexivity].
  unfold TM, u1, u2, b3, att_err, S_err, w_err, w_des, R_des, b1_des, b2_des,
    b3_des, c1_des, yaw_des, F_des, pos_err, dpos_err.
  destruct (np_matvec _ _) as [forces|e|]; cbn [bind fst];
    [|reflexivity|reflexivity].
  destruct (lib_as_quat _) as [q|e|]; cbn [bind fst]; reflexivity.
Qed.

Lemma run_updates_self (self : SE3Control)
      (calls : list (float64 * VehicleState * FlatOutput)) :
  snd (run_updates lib_as_matrix lib_as_quat self calls) = self.
Proof.
  revert self. induction calls as [|[[t s] f] rest IH]; intro self; [reflexivity|].
  cbn [run_updates].
  pose proof (update_method_read_only t s f self) as Hself.
  destruct (update_method lib_as_matrix lib_as_quat t s f self) as [out self'].
  cbn [snd] in Hself. subst self'.
  specialize (IH self).
  destruct (run_updates lib_as_matrix lib_as_quat self rest) as [outs self''].
  cbn [snd] in *. exact IH.
Qed.

(** C8.  A call of [update] leaves every attribute of the instance as it
    was: the body, run statement by statement on the instance, ends on the
    instance it started from.  So does any run of earlier calls, and the
    command a call returns is the same after such a run and with another
    time argument: it is [update] of the arguments [state], [flat_output]
    and the instance. *)
Theorem update_is_pure (self : SE3Control) (t1 t2 : float64)
        (state : VehicleState) (flat_output : FlatOutput)
        (earlier : list (float64 * VehicleState * FlatOutput)) :
  snd (update_method lib_as_matrix lib_as_quat t1 state flat_output self) = self /\
  snd (run_updates lib_as_matrix lib_as_quat self earlier) = self /\
  fst (update_method lib_as_matrix lib_as_quat t2 state flat_output
         (snd (run_updates lib_as_matrix lib_as_quat self earlier)))
  = fst (update_method lib_as_matrix lib_as_quat t1 state flat_output self) /\
  fst (update_method lib_as_matrix lib_as_quat t1 state flat_output self)
  = update lib_as_matrix lib_as_quat self t1 state flat_output.
Proof.
  split; [apply update_method_read_only|].
  split; [apply run_updates_self|].
  split; [|apply update_method_value].
  rewrite run_updates_self, !update_method_value. reflexivity.
Qed.

End UpdateFacts.

(** C9.  [vee_map] applied to the skew-symmetric matrix of a 3-vector gives
    the vector back, entry for entry. *)
Theorem vee_map_skew (a : vecF) : vee_map (skew a) = a.
Proof.
  destruct a as [x y z]. unfold vee_map, skew. cbn [v0 v1 v2].
  rewrite !fneg_involutive. reflexivity.
Qed.

(** * Concrete runs *)

Lemma zero_errors (q : quat) (acc : vecF) :
  pos_err (state0 q) (flat0 acc) = zero3 /\
  dpos_err (state0 q) (flat0 acc) = zero3.
Proof.
  unfold pos_err, dpos_err. cbn [state0 flat0 st_x fo_x st_v fo_x_dot].
  unfold zero3, vsub, vzip. cbn [v0 v1 v2 fsub lift2].
  split; f_equal; apply Fin_eq; ring.
Qed.

Lemma quat_norm_unit (a b c d : R) :
  a * a + b * b + c * c + d * d = 1 ->
  quat_norm (Quat (Fin a) (Fin b) (Fin c) (Fin d)) = Fin 1.
Proof.
  intro H. unfold quat_norm. cbn [qi qj qk qw fmul fadd lift2].
  rewrite H, fsqrt_fin by lra. now rewrite sqrt_1.
Qed.

Lemma quat_as_matrix_identity :
  quat_as_matrix q_identity = Ok (mfin (diag3 1 1 1)).
Proof.
  unfold quat_as_matrix, quat_normalize, q_identity.
  rewrite quat_norm_unit by ring.
  unfold fis_zero. destruct (Req_dec_T 1 0) as [E|_]; [lra|].
  cbn [qi qj qk qw]. rewrite !fdiv_fin by lra.
  cbv [fmul fadd fsub fneg lift1 lift2 mfin vfin vmap diag3 v0 v1 v2 qi qj qk qw].
  do 3 f_equal; apply Fin_eq; field.
Qed.

Lemma quat_as_matrix_flip_x :
  quat_as_matrix q_flip_x = Ok (mfin (diag3 1 (-1) (-1))).
Proof.
  unfold quat_as_matrix, quat_normalize, q_flip_x.
  rewrite quat_norm_unit by ring.
  unfold fis_zero. destruct (Req_dec_T 1 0) as [E|_]; [lra|].
  cbn [qi qj qk qw]. rewrite !fdiv_fin by lra.
  cbv [fmul fadd fsub fneg lift1 lift2 mfin vfin vmap diag3 v0 v1 v2 qi qj qk qw].
  do 3 f_equal; apply Fin_eq; field.
Qed.

Lemma quat_normalize_axis (a b c d : R) :
  a * a + b * b + c * c + d * d = 4 * 4 ->
  quat_normalize (Quat (Fin a) (Fin b) (Fin c) (Fin d))
  = Quat (Fin (a / 4)) (Fin (b / 4)) (Fin (c / 4)) (Fin (d / 4)).
Proof.
  intro H. unfold quat_normalize, quat_norm.
  cbn [qi qj qk qw fmul fadd lift2].
  rewrite H, fsqrt_fin by lra. rewrite sqrt_square by lra.
  rewrite !fdiv_fin by lra. reflexivity.
Qed.

Lemma matrix_as_quat_identity :
  matrix_as_quat (mfin (diag3 1 1 1)) = Ok q_identity.
Proof.
  unfold matrix_as_quat, diag3, mfin, vfin, vmap, argmax4.
  cbn [v0 v1 v2 fadd fsub fmul lift2].
  rewrite (@fltb_nlt 1 1) by lra. cbv iota.
  rewrite (@fltb_nlt 1 1) by lra. cbv iota.
  rewrite (@fltb_lt 1 (1 + 1 + 1)) by lra. cbv iota.
  rewrite quat_normalize_axis by ring.
  unfold q_identity. do 2 f_equal; apply Fin_eq; lra.
Qed.

Lemma matrix_as_quat_flip_x :
  matrix_as_quat (mfin (diag3 1 (-1) (-1))) = Ok q_flip_x.
Proof.
  unfold matrix_as_quat, diag3, mfin, vfin, vmap, argmax4.
  cbn [v0 v1 v2 fadd fsub fmul lift2].
  rewrite (@fltb_nlt 1 (-1)) by lra. cbv iota.
  rewrite (@fltb_nlt 1 (-1)) by lra. cbv iota.
  rewrite (@fltb_nlt 1 (1 + -1 + -1)) by lra. cbv iota.
  rewrite quat_normalize_axis by ring.
  unfold q_flip_x. do 2 f_equal; apply Fin_eq; lra.
Qed.

(** The inverse allocation of a pure thrust [a] on [quad4]: four equal
    shares. *)
Lemma quad4_hover_forces (a : R) :
  map (fun r => fdotl r [Fin a; Fin 0; Fin 0; Fin 0])
      (adjugate_over_det 4 quad4_matrix)
  = [Fin (a / 4); Fin (a / 4); Fin (a / 4); Fin (a / 4)].
Proof.
  unfold quad4_matrix. unfold_mat.
  cbv [fdotl map combine fold_right fst snd fmul fadd lift2].
  repeat (f_equal; try (apply Fin_eq; lra)).
Qed.

(** [quad4] at rest and level, asked to hold its place: the thrust is the
    weight, the moment is zero and the four rotor forces are equal and
    positive. *)
Lemma quad4_hover_run (t : float64) :
  exists c,
    __init__ quad4 = Ok c /\
    np_matvec (TM_to_f c) (TM c (state0 q_identity) (flat0 zero3) (mfin (diag3 1 1 1)))
    = Ok [Fin (0.03 * 9.81 / 4); Fin (0.03 * 9.81 / 4);
          Fin (0.03 * 9.81 / 4); Fin (0.03 * 9.81 / 4)] /\
    update quat_as_matrix matrix_as_quat c t (state0 q_identity) (flat0 zero3)
    = Ok {| cmd_motor_speeds :=
              map (motor_speed 1e-6)
                  [Fin (0.03 * 9.81 / 4); Fin (0.03 * 9.81 / 4);
                   Fin (0.03 * 9.81 / 4); Fin (0.03 * 9.81 / 4)];
            cmd_thrust := Fin (0.03 * 9.81);
            cmd_moment := zero3;
            cmd_q := q_identity |}.
Proof.
  destruct quad4_init as (c & Hc & Hf & Hinv).
  exists c. split; [exact Hc|].
  destruct (init_ok quad4 Hc) as (_ & _ & _ & Hm & Hk & _ & _ & _ & Hg & _).
  cbn [quad4 qp_mass qp_k_eta] in Hm, Hk.
  destruct (zero_errors q_identity zero3) as [Hp Hd].
  assert (HR : R_des c (state0 q_identity) (flat0 zero3) = mfin (diag3 1 1 1)).
  { apply (R_des_hover_yaw0 c Hp Hd eq_refl eq_refl). rewrite Hm, Hg. lra. }
  destruct (hover_update quat_as_matrix matrix_as_quat quad4 t Hc Hp Hd
              quat_as_matrix_identity HR eq_refl eq_refl eq_refl
              matrix_as_quat_identity) as [HF Hu].
  rewrite HF, Hu, Hinv, quad4_hover_forces, Hm, Hk, Hg.
  rewrite Rabs_right by lra. split; reflexivity.
Qed.

Lemma quad4_unphysical_init :
  exists c, __init__ quad4_unphysical = Ok c /\ mass c = -1 /\ g c = 9.81.
Proof.
  destruct quad4_init as (c & Hc & _).
  assert (Hok : is_ok (__init__ quad4_unphysical)).
  { apply init_is_ok_inertial. rewrite Hc. exact I. }
  destruct (__init__ quad4_unphysical) as [c'|e|] eqn:E;
    [|contradiction|contradiction].
  exists c'. split; [reflexivity|].
  destruct (init_ok _ E) as (_ & _ & _ & Hm & _ & _ & _ & _ & Hg & _).
  split; [exact Hm | exact Hg].
Qed.

(** * Concrete instances of the claims on [update] *)

(** [quad4] level and at rest at its target. *)
Lemma hover_command_witness :
  exists c,
    __init__ quad4 = Ok c /\
    exists cmd,
      update quat_as_matrix matrix_as_quat c (Fin 0)
             (state0 q_identity) (flat0 zero3) = Ok cmd /\
      cmd_thrust cmd = Fin (mass c * g c) /\
      cmd_moment cmd = zero3.
Proof.
  destruct quad4_init as (c & Hc & _).
  exists c. split; [exact Hc|].
  destruct (init_ok quad4 Hc) as (_ & _ & _ & Hm & _ & _ & _ & _ & Hg & _).
  cbn [quad4 qp_mass] in Hm.
  destruct (zero_errors q_identity zero3) as [Hp Hd].
  assert (Hpos : 0 < mass c) by (rewrite Hm; lra).
  assert (HR : R_des c (state0 q_identity) (flat0 zero3) = mfin (diag3 1 1 1)).
  { apply (R_des_hover_yaw0 c Hp Hd eq_refl eq_refl). rewrite Hm, Hg. lra. }
  exact (hover_command quat_as_matrix matrix_as_quat quad4 (Fin 0) Hc Hpos Hp Hd
           quat_as_matrix_identity HR eq_refl eq_refl eq_refl
           matrix_as_quat_identity).
Defined.

(** Outside the physical range the thrust is [|mass| * g].  [quad4] with a
    mass of -1 kg, which the constructor accepts, upside down and at rest at
    its target: every error is zero, the current orientation is the desired
    one, and the thrust returned is 9.81 N. *)
Lemma hover_thrust_negative_mass :
  exists c cmd,
    __init__ quad4_unphysical = Ok c /\
    pos_err (state0 q_flip_x) (flat0 zero3) = zero3 /\
    dpos_err (state0 q_flip_x) (flat0 zero3) = zero3 /\
    quat_as_matrix (st_q (state0 q_flip_x))
    = Ok (R_des c (state0 q_flip_x) (flat0 zero3)) /\
    st_w (state0 q_flip_x) = zero3 /\
    fo_x_ddot (flat0 zero3) = zero3 /\
    fo_yaw_dot (flat0 zero3) = Fin 0 /\
    update quat_as_matrix matrix_as_quat c (Fin 0)
           (state0 q_flip_x) (flat0 zero3) = Ok cmd /\
    cmd_moment cmd = zero3 /\
    cmd_thrust cmd = Fin 9.81 /\
    cmd_thrust cmd <> Fin (mass c * g c).
Proof.
  destruct quad4_unphysical_init as (c & Hc & Hm & Hg).
  destruct (zero_errors q_flip_x zero3) as [Hp Hd].
  assert (HR : R_des c (state0 q_flip_x) (flat0 zero3) = mfin (diag3 1 (-1) (-1))).
  { apply (R_des_hover_yaw0 c Hp Hd eq_refl eq_refl). rewrite Hm, Hg. lra. }
  destruct (hover_update quat_as_matrix matrix_as_quat quad4_unphysical (Fin 0)
              Hc Hp Hd quat_as_matrix_flip_x HR eq_refl eq_refl eq_refl
              matrix_as_quat_flip_x) as [_ Hu].
  exists c. eexists. split; [exact Hc|].
  split; [exact Hp|]. split; [exact Hd|].
  split; [rewrite HR; exact quat_as_matrix_flip_x|].
  split; [reflexivity|]. split; [reflexivity|]. split; [reflexivity|].
  split; [exact Hu|]. cbn [cmd_moment cmd_thrust].
  split; [reflexivity|]. rewrite Hm, Hg.
  split.
  - apply Fin_eq. rewrite Rabs_left by lra. lra.
  - intro E. injection E as E. rewrite Rabs_left in E by lra. lra.
Qed.

Lemma quad4_free_fall :
  forall c, __init__ quad4 = Ok c ->
            F_des c (state0 q_identity) (flat0 free_fall) = zero3.
Proof.
  intros c Hc.
  destruct (init_ok quad4 Hc) as (_ & _ & _ & _ & _ & _ & _ & _ & Hg & _).
  destruct (zero_errors q_identity free_fall) as [Hp Hd].
  apply (F_des_free_fall c Hp Hd). rewrite Hg.
  cbn [flat0 fo_x_ddot]. unfold free_fall. f_equal. apply Fin_eq. lra.
Qed.

Lemma matrix_as_quat_returns (M : matF) : exists qd, matrix_as_quat M = Ok qd.
Proof. eexists. reflexivity. Qed.

(** [quad4] with a feed-forward acceleration that cancels gravity. *)
Lemma degenerate_force_unguarded_witness :
  exists c,
    __init__ quad4 = Ok c /\
    R_des c (state0 q_identity) (flat0 free_fall) = nan33 /\
    (forall cmd,
        update quat_as_matrix matrix_as_quat c (Fin 0)
               (state0 q_identity) (flat0 free_fall) = Ok cmd ->
        cmd_moment cmd = nan3 /\ cmd_motor_speeds cmd = [NaN; NaN; NaN; NaN]) /\
    (forall Rm qd,
        quat_as_matrix (st_q (state0 q_identity)) = Ok Rm ->
        matrix_as_quat nan33 = Ok qd ->
        exists cmd,
          update quat_as_matrix matrix_as_quat c (Fin 0)
                 (state0 q_identity) (flat0 free_fall) = Ok cmd
          /\ cmd_q cmd = qd).
Proof.
  destruct quad4_init as (c & Hc & _).
  exists c. split; [exact Hc|].
  exact (degenerate_force_unguarded quat_as_matrix matrix_as_quat quad4 (Fin 0)
           Hc (quad4_free_fall Hc)).
Defined.

(** C2, as stated, fails.  [quad4] level and at rest at its target, with a
    feed-forward acceleration that cancels gravity: the desired force is
    zero, and [update] returns a command whose moment and rotor speeds are
    not-a-number. *)
Lemma free_fall_command_nan :
  exists c cmd,
    __init__ quad4 = Ok c /\
    F_des c (state0 q_identity) (flat0 free_fall) = zero3 /\
    update quat_as_matrix matrix_as_quat c (Fin 0)
           (state0 q_identity) (flat0 free_fall) = Ok cmd /\
    cmd_moment cmd = nan3 /\
    cmd_motor_speeds cmd = [NaN; NaN; NaN; NaN].
Proof.
  destruct quad4_init as (c & Hc & _).
  pose proof (quad4_free_fall Hc) as HF.
  destruct (matrix_as_quat_returns nan33) as [qd Hq].
  exists c. eexists. split; [exact Hc|]. split; [exact HF|].
  split.
  - exact (degenerate_update quat_as_matrix matrix_as_quat quad4 (Fin 0)
             Hc HF quat_as_matrix_identity Hq).
  - split; reflexivity.
Qed.

(** The rotor speeds of [quad4] in hover. *)
Lemma speed_signed_square_witness :
  exists c cmd,
    __init__ quad4 = Ok c /\
    update quat_as_matrix matrix_as_quat c (Fin 0)
           (state0 q_identity) (flat0 zero3) = Ok cmd /\
    exists Rm forces,
      quat_as_matrix (st_q (state0 q_identity)) = Ok Rm /\
      np_matvec (TM_to_f c) (TM c (state0 q_identity) (flat0 zero3) Rm)
      = Ok forces /\
      Forall2 (fun sp force =>
                 forall r, force = Fin r ->
                   (fsign sp * (sp * sp))%f64 = Fin (r / k_eta c) /\
                   (Fin (k_eta c) * (fsign sp * (sp * sp)))%f64 = Fin r)
              (cmd_motor_speeds cmd) forces.
Proof.
  destruct (quad4_hover_run (Fin 0)) as (c & Hc & _ & Hu).
  exists c. eexists. split; [exact Hc|]. split; [exact Hu|].
  exact (speed_signed_square quat_as_matrix matrix_as_quat quad4 (Fin 0)
           (state0 q_identity) (flat0 zero3) Hc Hu).
Defined.

(** C6, as stated, fails.  In the hover of [quad4] the allocation step
    yields four forces of 0.03 * 9.81 / 4 N; the signed square of each
    returned speed is that force divided by [k_eta = 1e-6], not the force. *)
Lemma hover_speed_square_is_not_force :
  exists c cmd sp,
    __init__ quad4 = Ok c /\
    np_matvec (TM_to_f c) (TM c (state0 q_identity) (flat0 zero3) (mfin (diag3 1 1 1)))
    = Ok [Fin (0.03 * 9.81 / 4); Fin (0.03 * 9.81 / 4);
          Fin (0.03 * 9.81 / 4); Fin (0.03 * 9.81 / 4)] /\
    update quat_as_matrix matrix_as_quat c (Fin 0)
           (state0 q_identity) (flat0 zero3) = Ok cmd /\
    cmd_motor_speeds cmd = [sp; sp; sp; sp] /\
    (fsign sp * (sp * sp))%f64 = Fin (0.03 * 9.81 / 4 / 1e-6) /\
    (fsign sp * (sp * sp))%f64 <> Fin (0.03 * 9.81 / 4).
Proof.
  destruct (quad4_hover_run (Fin 0)) as (c & Hc & HF & Hu).
  assert (Hk : 1e-6 <> 0) by lra.
  destruct (motor_speed_signed_square (0.03 * 9.81 / 4) Hk) as [Hs _].
  cbv zeta in Hs.
  exists c. eexists. exists (motor_speed 1e-6 (Fin (0.03 * 9.81 / 4))).
  split; [exact Hc|]. split; [exact HF|]. split; [exact Hu|].
  split; [reflexivity|]. split; [exact Hs|].
  rewrite Hs. intro E. injection E as E. lra.
Qed.

(** * Further properties of the constructor *)

Lemma build_f_to_TM_allocation (qp : quad_params) (M : matrix) :
  build_f_to_TM (qp_k_m qp / qp_k_eta qp) (qp_num_rotors qp) (qp_rotor_pos qp)
    = Ok M -> M = allocation_matrix qp.
Proof. intro H. apply build_f_to_TM_ok in H. tauto. Qed.

Lemma build_f_to_TM_err (k : R) (n : Z) (pos : list (string * vec3 R)) :
  ((n < 0)%Z \/ pos = [] \/ length pos <> Z.to_nat n) ->
  build_f_to_TM k n pos = Err ValueError.
Proof.
  intro H. unfold build_f_to_TM, np_ones_row.
  destruct (Z.ltb_spec n 0) as [Hn|Hn]; [reflexivity|]. cbn [bind].
  rewrite np_hstack_arms. destruct pos as [|kv pos]; [reflexivity|]. cbn [bind].
  unfold np_vstack, yaw_row. cbn [concat app forallb].
  unfold arm_row at 1 2. rewrite !length_map, length_range, repeat_length.
  destruct (Nat.eqb_spec (length (kv :: pos)) (Z.to_nat n)) as [E|E].
  - exfalso. destruct H as [H | [H | H]]; [lia | discriminate | contradiction].
  - reflexivity.
Qed.

Lemma allocation_matrix_square (qp : quad_params) :
  (0 <= qp_num_rotors qp)%Z ->
  length (qp_rotor_pos qp) = Z.to_nat (qp_num_rotors qp) ->
  is_square (allocation_matrix qp) = true <-> qp_num_rotors qp = 4%Z.
Proof.
  intros Hn Hl. unfold is_square, allocation_matrix. cbn [forallb length].
  unfold arm_row. rewrite !length_map, length_range, repeat_length, Hl.
  destruct (Nat.eqb_spec (Z.to_nat (qp_num_rotors qp)) 4) as [E|E];
    cbn [andb]; split; intro H; try reflexivity; try discriminate; lia.
Qed.

Lemma build_allocation_four (qp : quad_params) :
  qp_num_rotors qp = 4%Z ->
  length (qp_rotor_pos qp) = 4%nat ->
  build_f_to_TM (qp_k_m qp / qp_k_eta qp) (qp_num_rotors qp) (qp_rotor_pos qp)
  = Ok (allocation_matrix qp).
Proof.
  intros H4 Hl. apply build_f_to_TM_ok. unfold allocation_matrix. rewrite H4.
  split; [lia|]. split; [intro E; rewrite E in Hl; discriminate|].
  split; [exact Hl | reflexivity].
Qed.



Lemma init_zero_row_four (qp : quad_params) :
  qp_k_eta qp <> 0 -> qp_num_rotors qp = 4%Z ->
  length (qp_rotor_pos qp) = 4%nat ->
  existsb zero_row (allocation_matrix qp) = true ->
  __init__ qp = Err (LinAlgError Singular).
Proof.
  intros Hnz H4 Hl Hz.
  apply (init_zero_row qp Hnz (build_allocation_four qp H4 Hl)); [|exact Hz].
  apply allocation_matrix_square; rewrite ?H4; solve [lia | exact Hl].
Qed.

(** Which exception the constructor raises: [ZeroDivisionError] when
    [k_eta] is zero, before anything else; [ValueError] when the rotor count
    is negative or is not the number of entries of a non-empty [rotor_pos];
    [LinAlgError] on a count other than four (not square) and on four rotors
    whose allocation matrix holds a row of zeros (singular). *)
Theorem init_error_cases (qp : quad_params) :
  (qp_k_eta qp = 0 -> __init__ qp = Err ZeroDivisionError) /\
  (qp_k_eta qp <> 0 ->
   ((qp_num_rotors qp < 0)%Z \/ qp_rotor_pos qp = []
    \/ length (qp_rotor_pos qp) <> Z.to_nat (qp_num_rotors qp)) ->
   __init__ qp = Err ValueError) /\
  (qp_k_eta qp <> 0 -> (0 < qp_num_rotors qp)%Z ->
   length (qp_rotor_pos qp) = Z.to_nat (qp_num_rotors qp) ->
   qp_num_rotors qp <> 4%Z ->
   __init__ qp = Err (LinAlgError NotSquare)) /\
  (qp_k_eta qp <> 0 -> qp_num_rotors qp = 4%Z ->
   length (qp_rotor_pos qp) = 4%nat ->
   existsb zero_row (allocation_matrix qp) = true ->
   __init__ qp = Err (LinAlgError Singular)).
Proof.
  split; [|split; [|split]].
  - intro Hz. unfold __init__, py_div.
    destruct (Req_dec_T (qp_k_eta qp) 0); [reflexivity | contradiction].
  - intros Hnz H. unfold __init__, py_div.
    destruct (Req_dec_T (qp_k_eta qp) 0); [contradiction|]. cbn [bind].
    rewrite (build_f_to_TM_err _ H). reflexivity.
  - intros Hnz Hn Hl H4. unfold __init__, py_div.
    destruct (Req_dec_T (qp_k_eta qp) 0); [contradiction|]. cbn [bind].
    destruct (build_f_to_TM_not_square qp Hnz Hn Hl) as (M & HM & Hsq).
    rewrite HM. cbn [bind].
    rewrite (np_linalg_inv_4 M (proj1 (build_f_to_TM_rows _ _ _ HM))).
    rewrite (Hsq H4). reflexivity.
  - intros Hnz H4 Hl Hz. apply init_zero_row_four; assumption.
Qed.

(** The allocation matrix of four rotors, entry by entry: ones, the y
    coordinates, the opposites of the x coordinates, and [k_m/k_eta] with
    alternating sign. *)
Lemma allocation_matrix_four (qp : quad_params)
      (s1 s2 s3 s4 : string) (p1 p2 p3 p4 : vec3 R) :
  qp_num_rotors qp = 4%Z ->
  qp_rotor_pos qp = [(s1, p1); (s2, p2); (s3, p3); (s4, p4)] ->
  let k := qp_k_m qp / qp_k_eta qp in
  allocation_matrix qp =
    mat4 1 1 1 1
         (v1 p1) (v1 p2) (v1 p3) (v1 p4)
         (- v0 p1) (- v0 p2) (- v0 p3) (- v0 p4)
         k (- k) k (- k).
Proof.
  intros H4 Hpos k. unfold allocation_matrix. rewrite H4, Hpos. fold k.
  change (range 4) with [0; 1; 2; 3]%Z.
  change (Z.to_nat 4) with 4%nat.
  cbn [map repeat arm_row snd cross e3 v0 v1 v2].
  change ((-1) ^ 0)%Z with 1%Z. change ((-1) ^ 1)%Z with (-1)%Z.
  change ((-1) ^ 2)%Z with 1%Z. change ((-1) ^ 3)%Z with (-1)%Z.
  unfold mat4. repeat (f_equal; try ring).
Qed.

Lemma four_positions (pos : list (string * vec3 R)) :
  length pos = 4%nat ->
  exists s1 p1 s2 p2 s3 p3 s4 p4,
    pos = [(s1, p1); (s2, p2); (s3, p3); (s4, p4)].
Proof.
  intro H. destruct (length4 pos H) as ([s1 p1] & [s2 p2] & [s3 p3] & [s4 p4] & ->).
  exists s1, p1, s2, p2, s3, p3, s4, p4. reflexivity.
Qed.

(** With a yaw-moment coefficient [k_m] of zero the last row of the
    allocation matrix is zero: on four rotors the constructor raises the
    singular-matrix error, whatever the rotor positions. *)
Theorem zero_k_m_is_singular (qp : quad_params) :
  qp_k_eta qp <> 0 -> qp_k_m qp = 0 ->
  qp_num_rotors qp = 4%Z -> length (qp_rotor_pos qp) = 4%nat ->
  __init__ qp = Err (LinAlgError Singular).
Proof.
  intros Hk Hm H4 Hl.
  apply init_zero_row_four; auto.
  destruct (four_positions _ Hl) as (s1 & p1 & s2 & p2 & s3 & p3 & s4 & p4 & Hpos).
  rewrite (allocation_matrix_four qp H4 Hpos), Hm.
  unfold mat4. cbn [existsb].
  apply orb_true_iff; right. apply orb_true_iff; right.
  apply orb_true_iff; right. apply orb_true_iff; left.
  apply zero_row_spec. repeat constructor; unfold Rdiv; ring.
Qed.

(** Rotors whose horizontal positions lie on one line cannot be
    allocated: the array line 63 builds for four such rotors has a zero
    determinant and no inverse, whatever the two coefficients. *)
Theorem collinear_rotors_not_invertible (qp : quad_params) :
  qp_num_rotors qp = 4%Z -> length (qp_rotor_pos qp) = 4%nat ->
  collinear_xy (qp_rotor_pos qp) ->
  build_f_to_TM (qp_k_m qp / qp_k_eta qp) (qp_num_rotors qp) (qp_rotor_pos qp)
  = Ok (allocation_matrix qp) /\
  det 4 (allocation_matrix qp) = 0 /\
  ~ invertible (allocation_matrix qp).
Proof.
  intros H4 Hl (x0 & y0 & dx & dy & HF).
  pose proof (build_allocation_four qp H4 Hl) as HM.
  assert (Hd : det 4 (allocation_matrix qp) = 0).
  { destruct (four_positions _ Hl)
      as (s1 & p1 & s2 & p2 & s3 & p3 & s4 & p4 & Hpos).
    rewrite (allocation_matrix_four qp H4 Hpos).
    rewrite Hpos in HF.
    inversion HF as [|? ? (t1 & Hx1 & Hy1) HF1]; subst.
    inversion HF1 as [|? ? (t2 & Hx2 & Hy2) HF2]; subst.
    inversion HF2 as [|? ? (t3 & Hx3 & Hy3) HF3]; subst.
    inversion HF3 as [|? ? (t4 & Hx4 & Hy4) _]; subst.
    cbn [snd] in *.
    rewrite Hx1, Hx2, Hx3, Hx4, Hy1, Hy2, Hy3, Hy4.
    set (k := qp_k_m qp / qp_k_eta qp).
    unfold mat4. unfold_mat. ring. }
  split; [exact HM|]. split; [exact Hd|].
  intro Hinv.
  exact (invertible_det4 (proj1 (build_f_to_TM_rows _ _ _ HM)) Hinv Hd).
Qed.

Lemma xquad_matrix (d keta km : R) :
  allocation_matrix (xquad d keta km)
  = mat4 1 1 1 1
         d d (- d) (- d)
         (- d) (- - d) (- - d) (- d)
         (km / keta) (- (km / keta)) (km / keta) (- (km / keta)).
Proof. apply (allocation_matrix_four (xquad d keta km) eq_refl eq_refl). Qed.

(** The square layout: with a non-zero arm and non-zero coefficients the
    constructor returns, and the stored inverse mixes a thrust T and a
    moment (Mx, My, Mz) into the four rotor forces
    T/4 +- Mx/(4d) +- My/(4d) +- Mz/(4k), with k = k_m/k_eta. *)
Theorem square_layout_mixer (d keta km : R) :
  d <> 0 -> keta <> 0 -> km <> 0 ->
  exists c,
    __init__ (xquad d keta km) = Ok c /\
    forall T Mx My Mz : R,
      np_matvec (TM_to_f c) [Fin T; Fin Mx; Fin My; Fin Mz]
      = Ok [Fin (T / 4 + Mx / (4 * d) - My / (4 * d) + Mz / (4 * (km / keta)));
            Fin (T / 4 + Mx / (4 * d) + My / (4 * d) - Mz / (4 * (km / keta)));
            Fin (T / 4 - Mx / (4 * d) + My / (4 * d) + Mz / (4 * (km / keta)));
            Fin (T / 4 - Mx / (4 * d) - My / (4 * d) - Mz / (4 * (km / keta)))].
Proof.
  intros Hd Hk Hm.
  assert (Hq : km / keta <> 0).
  { unfold Rdiv. apply Rmult_integral_contrapositive_currified;
      [exact Hm | apply Rinv_neq_0_compat, Hk]. }
  assert (Hdet : det 4 (allocation_matrix (xquad d keta km)) <> 0).
  { rewrite xquad_matrix. set (k := km / keta) in *. clearbody k.
    unfold mat4. unfold_mat.
    match goal with
    | |- ?e <> 0 =>
        first [ replace e with (16 * (d * d * k)) by ring
              | replace e with (- (16 * (d * d * k))) by ring ]
    end.
    assert (Hddk : d * d * k <> 0)
      by (repeat apply Rmult_integral_contrapositive_currified; assumption).
    lra. }
  assert (HM : build_f_to_TM (qp_k_m (xquad d keta km) / qp_k_eta (xquad d keta km))
                 (qp_num_rotors (xquad d keta km)) (qp_rotor_pos (xquad d keta km))
               = Ok (allocation_matrix (xquad d keta km))).
  { apply build_allocation_four; reflexivity. }
  destruct (init_succeeds (xquad d keta km) Hk HM eq_refl Hdet) as (c & Hc & _ & Hinv).
  exists c. split; [exact Hc|]. intros T Mx My Mz.
  rewrite (np_matvec_ok _ (init_TM_to_f_shape _ Hc)) by reflexivity.
  rewrite Hinv. f_equal. rewrite xquad_matrix in *.
  set (k := km / keta) in *. clearbody k. clear - Hd Hq.
  unfold mat4. unfold_mat.
  cbv [fdotl map combine fold_right fst snd fmul fadd lift2].
  assert (Hddk : d * d * k <> 0)
    by (repeat apply Rmult_integral_contrapositive_currified; assumption).
  repeat (f_equal;
          try (apply Fin_eq; field; repeat split; try assumption;
               match goal with
               | |- ?e <> 0 =>
                   first [ replace e with (16 * (d * d * k)) by ring
                         | replace e with (- (16 * (d * d * k))) by ring ]
               end; lra)).
Qed.

(** * Further properties of the allocation step *)







Section AllocationFacts.

Variable lib_as_matrix : quat -> result matF.
Variable lib_as_quat : matF -> result quat.


End AllocationFacts.

Lemma signed_sqrt_sign (x : R) :
  let sp := Rsign x * sqrt (Rabs x) in
  sp * sp = Rabs x /\ (sp < 0 <-> x < 0) /\ (0 < sp <-> 0 < x) /\ (sp = 0 <-> x = 0).
Proof.
  intro sp. subst sp.
  assert (Hsq : sqrt (Rabs x) * sqrt (Rabs x) = Rabs x)
    by apply sqrt_sqrt, Rabs_pos.
  destruct (Rtotal_order x 0) as [Hx | [Hx | Hx]].
  - assert (Hs : 0 < sqrt (Rabs x)).
    { apply sqrt_lt_R0. rewrite Rabs_left by exact Hx. lra. }
    rewrite (Rsign_neg Hx).
    split; [rewrite <- Hsq at 3; ring|].
    split; [split; intro; lra|]. split; split; intro; lra.
  - rewrite Hx, Rsign_zero, Rabs_R0, sqrt_0.
    split; [ring|]. split; [split; intro; lra|]. split; split; intro; lra.
  - assert (Hs : 0 < sqrt (Rabs x)).
    { apply sqrt_lt_R0. rewrite Rabs_right by lra. lra. }
    rewrite (Rsign_pos Hx).
    split; [rewrite <- Hsq at 3; ring|].
    split; [split; intro; lra|]. split; split; intro; lra.
Qed.

(** The signed square root of lines 142-143 never yields not-a-number on a
    finite force: the speed has the sign of [force / k_eta], its square is
    [|force / k_eta|], and it is zero exactly for a zero force; the plain
    square root of a negative [force / k_eta] would be not-a-number. *)
Theorem motor_speed_signed (keta force : R) :
  keta <> 0 ->
  exists sp : R,
    motor_speed keta (Fin force) = Fin sp /\
    sp * sp = Rabs (force / keta) /\
    (sp < 0 <-> force / keta < 0) /\
    (0 < sp <-> 0 < force / keta) /\
    (sp = 0 <-> force = 0) /\
    (force / keta < 0 -> fsqrt (Fin force / Fin keta) = NaN).
Proof.
  intro Hk. rewrite (motor_speed_fin force Hk). rewrite (fdiv_fin force Hk).
  set (x := force / keta).
  assert (Hx0 : x = 0 <-> force = 0).
  { unfold x. split; intro H.
    - apply (Rmult_eq_compat_r keta) in H. unfold Rdiv in H.
      rewrite Rmult_assoc, Rinv_l, Rmult_1_r, Rmult_0_l in H by exact Hk. exact H.
    - rewrite H. unfold Rdiv. ring. }
  destruct (signed_sqrt_sign x) as (H1 & H2 & H3 & H4).
  exists (Rsign x * sqrt (Rabs x)).
  split; [reflexivity|]. split; [exact H1|]. split; [exact H2|].
  split; [exact H3|]. split; [rewrite H4; exact Hx0|].
  intro Hx. unfold fsqrt. destruct (Rlt_dec x 0); [reflexivity | contradiction].
Qed.

Section UpdateReturns.

Variable lib_as_matrix : quat -> result matF.
Variable lib_as_quat : matF -> result quat.

(** On a constructed controller [update] raises only what one of the two
    library conversions raises, returns whenever both return, and returns
    four rotor speeds. *)
Theorem update_raises_only_library (qp : quad_params) (c : SE3Control)
        (t : float64) (s : VehicleState) (f : FlatOutput) :
  __init__ qp = Ok c ->
  (forall e, update lib_as_matrix lib_as_quat c t s f = Err e ->
             lib_as_matrix (st_q s) = Err e \/
             lib_as_quat (R_des c s f) = Err e) /\
  (forall Rm q, lib_as_matrix (st_q s) = Ok Rm ->
                lib_as_quat (R_des c s f) = Ok q ->
                exists cmd, update lib_as_matrix lib_as_quat c t s f = Ok cmd) /\
  (forall cmd, update lib_as_matrix lib_as_quat c t s f = Ok cmd ->
               length (cmd_motor_speeds cmd) = 4%nat).
Proof.
  intro Hc. pose proof (init_TM_to_f_shape qp Hc) as Hsh.
  unfold update.
  destruct (lib_as_matrix (st_q s)) as [Rm|e1|]; cbn [bind].
  - rewrite (np_matvec_ok _ Hsh) by reflexivity. cbn [bind].
    destruct (lib_as_quat (R_des c s f)) as [q|e2|]; cbn [bind].
    + split; [discriminate|]. split.
      * intros. eexists. reflexivity.
      * intros cmd H. injection H as <-. cbn [cmd_motor_speeds].
        rewrite !length_map. apply Hsh.
    + split; [intros e H; injection H as <-; right; reflexivity|].
      split; [discriminate | discriminate].
    + split; [discriminate|]. split; [discriminate | discriminate].
  - split; [intros e H; injection H as <-; left; reflexivity|].
    split; [discriminate | discriminate].
  - split; [discriminate|]. split; [discriminate | discriminate].
Qed.

End UpdateReturns.

(** * Further properties of the per-step law *)

Lemma sumsq_nonneg (a b c : R) : 0 <= a * a + b * b + c * c.
Proof. nra. Qed.

Lemma rnorm_nonneg (a b c : R) : 0 <= rnorm a b c.
Proof. apply sqrt_pos. Qed.

Lemma rnorm_sq (a b c : R) : rnorm a b c * rnorm a b c = a * a + b * b + c * c.
Proof. apply sqrt_sqrt, sumsq_nonneg. Qed.

Lemma rnorm_zero_iff (a b c : R) :
  rnorm a b c = 0 <-> a = 0 /\ b = 0 /\ c = 0.
Proof.
  split.
  - intro H. pose proof (rnorm_sq a b c) as Hs. rewrite H in Hs.
    assert (Ha : a * a = 0) by nra. assert (Hb : b * b = 0) by nra.
    assert (Hc : c * c = 0) by nra.
    repeat split; apply Rsqr_0_uniq; assumption.
  - intros (-> & -> & ->). apply rnorm_zero.
Qed.

Lemma rnorm_scale (l a b c : R) :
  rnorm (l * a) (l * b) (l * c) = Rabs l * rnorm a b c.
Proof.
  unfold rnorm.
  replace (l * a * (l * a) + l * b * (l * b) + l * c * (l * c))
    with (Rsqr l * (a * a + b * b + c * c)) by (unfold Rsqr; ring).
  rewrite sqrt_mult by (try apply Rle_0_sqr; apply sumsq_nonneg).
  rewrite sqrt_Rsqr_abs. reflexivity.
Qed.

Lemma normalized_unit (a b c : R) :
  rnorm a b c <> 0 ->
  a / rnorm a b c * (a / rnorm a b c) + b / rnorm a b c * (b / rnorm a b c)
  + c / rnorm a b c * (c / rnorm a b c) = 1.
Proof.
  intro H. pose proof (rnorm_sq a b c) as Hs.
  set (n := rnorm a b c) in *.
  replace (a / n * (a / n) + b / n * (b / n) + c / n * (c / n))
    with ((a * a + b * b + c * c) / (n * n)) by (field; exact H).
  rewrite <- Hs. field. exact H.
Qed.

(** [normalize] on a finite vector that is not zero: the result has norm 1,
    a positive factor on the argument does not change it and a negative
    factor flips it. *)
Theorem normalize_unit_direction (a b c : R) :
  rnorm a b c <> 0 ->
  norm (normalize (V3 (Fin a) (Fin b) (Fin c))) = Fin 1 /\
  (forall l, 0 < l ->
     normalize (vscale (Fin l) (V3 (Fin a) (Fin b) (Fin c)))
     = normalize (V3 (Fin a) (Fin b) (Fin c))) /\
  (forall l, l < 0 ->
     normalize (vscale (Fin l) (V3 (Fin a) (Fin b) (Fin c)))
     = vneg (normalize (V3 (Fin a) (Fin b) (Fin c)))).
Proof.
  intro H. rewrite normalize_fin by exact H.
  split; [|split].
  - rewrite norm_fin. apply Fin_eq. unfold rnorm at 1.
    rewrite normalized_unit by exact H. apply sqrt_1.
  - intros l Hl. unfold vscale, vmap. cbn [v0 v1 v2 fmul lift2].
    assert (Hn : rnorm (l * a) (l * b) (l * c) <> 0).
    { rewrite rnorm_scale, Rabs_right by lra. nra. }
    rewrite normalize_fin by exact Hn. rewrite rnorm_scale, Rabs_right by lra.
    f_equal; apply Fin_eq; field; split; lra.
  - intros l Hl. unfold vscale, vmap. cbn [v0 v1 v2 fmul lift2].
    assert (Hn : rnorm (l * a) (l * b) (l * c) <> 0).
    { rewrite rnorm_scale, Rabs_left by lra. nra. }
    rewrite normalize_fin by exact Hn. rewrite rnorm_scale, Rabs_left by lra.
    unfold vneg, vmap. cbn [v0 v1 v2 fneg lift1].
    f_equal; apply Fin_eq; field; split; lra.
Qed.




(** The attitude error matrix is skew-symmetric whenever both orientations
    are finite, so [vee_map] loses nothing of it: the skew-symmetric matrix
    of [att_err] is [S_err]. *)
Theorem S_err_is_skew (c : SE3Control) (s : VehicleState) (f : FlatOutput)
        (Rr Dr : vec3 (vec3 R)) :
  R_des c s f = mfin Dr ->
  skew (att_err c s f (mfin Rr)) = S_err c s f (mfin Rr) /\
  S_err c s f (mfin Rr) = vmap vneg (transpose3 (S_err c s f (mfin Rr))).
Proof.
  intro HR. unfold att_err, S_err. rewrite HR.
  destruct Rr as [[r00 r01 r02] [r10 r11 r12] [r20 r21 r22]].
  destruct Dr as [[d00 d01 d02] [d10 d11 d12] [d20 d21 d22]].
  cbv [skew vee_map mscale msub matmul3 transpose3 column mfin vfin vmap vzip
       vscale vsub vneg dot3 fmul fadd fsub fneg lift1 lift2 v0 v1 v2].
  split; f_equal; f_equal; apply Fin_eq; ring.
Qed.

Lemma target_b3_des (c : SE3Control) (s : VehicleState) (f : FlatOutput)
      (Rr : vec3 (vec3 R)) (a b d : R) :
  F_des c s f = V3 (Fin a) (Fin b) (Fin d) ->
  R_des c s f = mfin Rr ->
  rnorm a b d <> 0 /\
  v2 (v0 Rr) = a / rnorm a b d /\
  v2 (v1 Rr) = b / rnorm a b d /\
  v2 (v2 Rr) = d / rnorm a b d.
Proof.
  intros HF HR.
  assert (Hb : b3_des c s f
               = V3 (Fin (v2 (v0 Rr))) (Fin (v2 (v1 Rr))) (Fin (v2 (v2 Rr)))).
  { apply (f_equal (fun M => column (@v2 _) M)) in HR.
    destruct Rr as [[r00 r01 r02] [r10 r11 r12] [r20 r21 r22]].
    unfold R_des, transpose3, column, mfin, vfin, vmap in HR.
    cbn [v0 v1 v2] in HR |- *. rewrite <- HR.
    destruct (b3_des c s f); reflexivity. }
  unfold b3_des in Hb. rewrite HF in Hb.
  destruct (Req_dec_T (rnorm a b d) 0) as [Hz|Hnz].
  - rewrite normalize_degenerate in Hb by exact Hz. discriminate.
  - split; [exact Hnz|].
    rewrite normalize_fin in Hb by exact Hnz.
    injection Hb as H0 H1 H2. repeat split; symmetry; assumption.
Qed.

(** When the current orientation is the desired one, the attitude error is
    zero, the thrust is the norm of the desired force, and the moment is the
    rate damping alone: inertia times [-kd_att * (w - [0, 0, yaw_dot])]. *)
Theorem command_at_target_attitude (c : SE3Control) (s : VehicleState)
        (f : FlatOutput) (Rr : vec3 (vec3 R)) (a b d yd : R) (w : vec3 R) :
  F_des c s f = V3 (Fin a) (Fin b) (Fin d) ->
  R_des c s f = mfin Rr ->
  st_w s = vfin w ->
  fo_yaw_dot f = Fin yd ->
  att_err c s f (mfin Rr) = zero3 /\
  u1 c s f (mfin Rr) = Fin (rnorm a b d) /\
  u2 c s f (mfin Rr)
  = vfin (rmatvec (inertia c)
            (V3 (- kd_att c * v0 w) (- kd_att c * v1 w)
                (- kd_att c * (v2 w - yd)))).
Proof.
  intros HF HR Hw Hyd.
  destruct (target_b3_des HF HR) as (Hn & H0 & H1 & H2).
  pose proof (rnorm_sq a b d) as Hsq.
  split; [|split].
  - unfold att_err, S_err. rewrite HR.
    destruct Rr as [[r00 r01 r02] [r10 r11 r12] [r20 r21 r22]].
    unfold_f64. f_equal; apply Fin_eq; ring.
  - unfold u1, b3. rewrite HF.
    destruct Rr as [[r00 r01 r02] [r10 r11 r12] [r20 r21 r22]].
    cbn [v0 v1 v2] in H0, H1, H2. unfold_f64. apply Fin_eq.
    rewrite H0, H1, H2. set (n := rnorm a b d) in *.
    transitivity ((a * a + b * b + d * d) / n); [field; exact Hn|].
    rewrite <- Hsq. field. exact Hn.
  - unfold u2, att_err, S_err, w_err, w_des. rewrite HR, Hw, Hyd.
    destruct Rr as [[r00 r01 r02] [r10 r11 r12] [r20 r21 r22]].
    destruct (inertia c) as [[i00 i01 i02] [i10 i11 i12] [i20 i21 i22]].
    destruct w as [w0 w1 w2].
    unfold rmatvec, rdot. unfold_f64. f_equal; apply Fin_eq; ring.
Qed.

(** The thrust never exceeds the norm of the desired force: for a finite
    desired force and a current orientation whose third column has norm 1
    (any rotation matrix), [|cmd_thrust| <= |F_des|]. *)
Theorem thrust_bounded_by_force (c : SE3Control) (s : VehicleState)
        (f : FlatOutput) (Rr : vec3 (vec3 R)) (a b d : R) :
  F_des c s f = V3 (Fin a) (Fin b) (Fin d) ->
  v2 (v0 Rr) * v2 (v0 Rr) + v2 (v1 Rr) * v2 (v1 Rr) + v2 (v2 Rr) * v2 (v2 Rr) = 1 ->
  exists T : R,
    u1 c s f (mfin Rr) = Fin T /\ Rabs T <= rnorm a b d.
Proof.
  intros HF Hunit.
  destruct Rr as [[r00 r01 r02] [r10 r11 r12] [r20 r21 r22]].
  cbn [v0 v1 v2] in Hunit.
  exists (a * r02 + b * r12 + d * r22). split.
  - unfold u1, b3. rewrite HF. unfold_f64. apply Fin_eq. ring.
  - pose proof (rnorm_sq a b d) as Hsq. pose proof (rnorm_nonneg a b d) as Hn.
    set (n := rnorm a b d) in *. set (T := a * r02 + b * r12 + d * r22).
    assert (HT : T * T <= n * n).
    { rewrite Hsq.
      assert (Hl : (a * a + b * b + d * d) * (r02 * r02 + r12 * r12 + r22 * r22)
                   - T * T
                   = (a * r12 - b * r02) * (a * r12 - b * r02)
                     + (a * r22 - d * r02) * (a * r22 - d * r02)
                     + (b * r22 - d * r12) * (b * r22 - d * r12))
        by (unfold T; ring).
      rewrite Hunit, Rmult_1_r in Hl.
      pose proof (Rle_0_sqr (a * r12 - b * r02)) as Q1.
      pose proof (Rle_0_sqr (a * r22 - d * r02)) as Q2.
      pose proof (Rle_0_sqr (b * r22 - d * r12)) as Q3.
      unfold Rsqr in Q1, Q2, Q3. lra. }
    rewrite <- (Rabs_right n) by lra.
    apply Rsqr_le_abs_0. unfold Rsqr. exact HT.
Qed.

(** The desired force with no position or velocity error: mass times the
    feed-forward acceleration plus gravity. *)
Lemma F_des_feed_forward (c : SE3Control) (s : VehicleState) (f : FlatOutput)
      (ax ay az : R) :
  pos_err s f = zero3 -> dpos_err s f = zero3 ->
  fo_x_ddot f = V3 (Fin ax) (Fin ay) (Fin az) ->
  F_des c s f = V3 (Fin (mass c * ax)) (Fin (mass c * ay))
                   (Fin (mass c * (az + g c))).
Proof.
  intros Hp Hd Ha. unfold F_des. rewrite Hp, Hd, Ha.
  destruct (kp_pos c) as [p0 p1 p2], (kd_pos c) as [d0 d1 d2].
  unfold_f64. f_equal; apply Fin_eq; ring.
Qed.

Lemma aligned_R_des (c : SE3Control) (s : VehicleState) (f : FlatOutput)
      (a b psi : R) :
  F_des c s f = V3 (Fin a) (Fin b) (Fin 0) ->
  fo_yaw f = Fin psi ->
  a * sin psi = b * cos psi ->
  a <> 0 \/ b <> 0 ->
  b2_des c s f = nan3 /\
  R_des c s f = V3 (V3 NaN NaN (Fin (a / rnorm a b 0)))
                   (V3 NaN NaN (Fin (b / rnorm a b 0)))
                   (V3 NaN NaN (Fin (0 / rnorm a b 0))).
Proof.
  intros HF Hy Hal Hab.
  assert (Hn : rnorm a b 0 <> 0).
  { intro E. apply rnorm_zero_iff in E. tauto. }
  assert (Hb2 : b2_des c s f = nan3).
  { unfold b2_des, b3_des, c1_des, yaw_des. rewrite HF, Hy.
    rewrite normalize_fin by exact Hn.
    cbv [fcross fcos fsin lift1 lift2 fmul fsub v0 v1 v2].
    apply normalize_degenerate. apply rnorm_zero_iff.
    set (n := rnorm a b 0) in *.
    repeat split; try (unfold Rdiv; ring).
    transitivity ((a * sin psi - b * cos psi) / n); [field; exact Hn|].
    rewrite Hal. unfold Rdiv. ring. }
  split; [exact Hb2|].
  unfold R_des, b1_des. rewrite Hb2. unfold b3_des. rewrite HF.
  rewrite normalize_fin by exact Hn. reflexivity.
Qed.

Lemma aligned_u2 (c : SE3Control) (s : VehicleState) (f : FlatOutput)
      (Rm : matF) (x y z : float64) :
  R_des c s f = V3 (V3 NaN NaN x) (V3 NaN NaN y) (V3 NaN NaN z) ->
  u2 c s f Rm = nan3.
Proof.
  intro H. unfold u2, att_err, S_err. rewrite H. reflexivity.
Qed.

Section AlignedFacts.

Variable lib_as_matrix : quat -> result matF.
Variable lib_as_quat : matF -> result quat.

(** [update] has no guard on a horizontal desired force aligned with the
    yaw direction either: [b2_des] is then the normalisation of a zero
    vector, the first two columns of the desired orientation are
    not-a-number, and every command returned carries a not-a-number moment
    and four not-a-number rotor speeds. *)
Theorem aligned_force_unguarded (qp : quad_params) (c : SE3Control)
        (t : float64) (s : VehicleState) (f : FlatOutput) (a b psi : R) :
  __init__ qp = Ok c ->
  F_des c s f = V3 (Fin a) (Fin b) (Fin 0) ->
  fo_yaw f = Fin psi ->
  a * sin psi = b * cos psi ->
  a <> 0 \/ b <> 0 ->
  b2_des c s f = nan3 /\
  R_des c s f = V3 (V3 NaN NaN (Fin (a / rnorm a b 0)))
                   (V3 NaN NaN (Fin (b / rnorm a b 0)))
                   (V3 NaN NaN (Fin (0 / rnorm a b 0))) /\
  (forall cmd, update lib_as_matrix lib_as_quat c t s f = Ok cmd ->
               cmd_moment cmd = nan3 /\
               cmd_motor_speeds cmd = [NaN; NaN; NaN; NaN]).
Proof.
  intros Hc HF Hy Hal Hab.
  destruct (aligned_R_des HF Hy Hal Hab) as [Hb2 HR].
  split; [exact Hb2|]. split; [exact HR|].
  intros cmd Hu.
  destruct (update_ok _ _ _ _ _ _ Hu) as (Rm & fo & _ & Hfo & _ & Hsp & _ & Hu2).
  pose proof (init_TM_to_f_shape qp Hc) as Hsh.
  rewrite (aligned_u2 Rm HR) in Hu2. split; [exact Hu2|].
  rewrite (np_matvec_ok _ Hsh) in Hfo by reflexivity.
  injection Hfo as <-. rewrite Hsp. unfold TM.
  rewrite (aligned_u2 Rm HR). cbn [v0 v1 v2 nan3].
  apply degenerate_speeds, Hsh.
Qed.

End AlignedFacts.



Lemma arm_row_same_xy (pos pos' : list (string * vec3 R)) :
  Forall2 same_xy pos pos' ->
  arm_row (@v0 R) pos = arm_row (@v0 R) pos' /\
  arm_row (@v1 R) pos = arm_row (@v1 R) pos'.
Proof.
  induction 1 as [|kv kv' pos pos' [Hx Hy] _ [IH0 IH1]]; [split; reflexivity|].
  unfold arm_row in *. cbn [map]. rewrite IH0, IH1.
  unfold cross, e3. cbn [v0 v1 v2]. rewrite Hx, Hy.
  split; f_equal; ring.
Qed.

Lemma build_f_to_TM_same_xy (k : R) (n : Z) (pos pos' : list (string * vec3 R)) :
  Forall2 same_xy pos pos' ->
  build_f_to_TM k n pos' = build_f_to_TM k n pos.
Proof.
  intro H. destruct (arm_row_same_xy H) as [H0 H1].
  unfold build_f_to_TM.
  destruct (np_ones_row n) as [ones|e|]; [|reflexivity|reflexivity].
  cbn [bind]. rewrite !np_hstack_arms.
  destruct H as [|kv kv' pos pos' Hkv H]; [reflexivity|].
  rewrite <- H0, <- H1. reflexivity.
Qed.

(** The allocator ignores the height of the rotors: changing the z
    coordinates in [rotor_pos] changes neither whether the constructor
    returns nor the two allocation matrices it stores. *)
Theorem allocation_ignores_rotor_height (qp : quad_params)
        (pos' : list (string * vec3 R)) :
  Forall2 same_xy (qp_rotor_pos qp) pos' ->
  (is_ok (__init__ (with_rotors qp (qp_num_rotors qp) pos')) <-> is_ok (__init__ qp)) /\
  (forall c c', __init__ qp = Ok c ->
                __init__ (with_rotors qp (qp_num_rotors qp) pos') = Ok c' ->
                f_to_TM c' = f_to_TM c /\ TM_to_f c' = TM_to_f c).
Proof.
  intro H.
  pose proof (build_f_to_TM_same_xy (qp_k_m qp / qp_k_eta qp) (qp_num_rotors qp) H)
    as HB.
  split.
  - unfold __init__.
    cbn [with_rotors qp_k_m qp_k_eta qp_num_rotors qp_rotor_pos].
    destruct (py_div (qp_k_m qp) (qp_k_eta qp)) as [k|e|] eqn:Ek;
      cbn [bind is_ok]; [|tauto|tauto].
    assert (Hk : k = qp_k_m qp / qp_k_eta qp).
    { unfold py_div in Ek. destruct (Req_dec_T (qp_k_eta qp) 0); [discriminate|].
      injection Ek as <-. reflexivity. }
    rewrite Hk, HB.
    destruct (build_f_to_TM (qp_k_m qp / qp_k_eta qp) (qp_num_rotors qp)
                (qp_rotor_pos qp)) as [M|e|]; cbn [bind is_ok]; [|tauto|tauto].
    destruct (np_linalg_inv M) as [M'|e|]; cbn [bind is_ok]; tauto.
  - intros c c' Hc Hc'.
    destruct (init_ok qp Hc) as (_ & HM & Hinv & _).
    destruct (init_ok _ Hc') as (_ & HM' & Hinv' & _).
    cbn [with_rotors qp_k_m qp_k_eta qp_num_rotors qp_rotor_pos] in HM'.
    rewrite HB, HM in HM'. injection HM' as HM'.
    rewrite <- HM' in Hinv'. rewrite Hinv in Hinv'. injection Hinv' as Hinv'.
    split; congruence.
Qed.

(** * Concrete instances of the further properties *)

Lemma quad4_hover_facts :
  exists c,
    __init__ quad4 = Ok c /\ mass c = 0.03 /\ g c = 9.81 /\
    F_des c (state0 q_identity) (flat0 zero3)
    = V3 (Fin 0) (Fin 0) (Fin (mass c * g c)) /\
    R_des c (state0 q_identity) (flat0 zero3) = mfin (diag3 1 1 1).
Proof.
  destruct quad4_init as (c & Hc & _).
  exists c. split; [exact Hc|].
  destruct (init_ok quad4 Hc) as (_ & _ & _ & Hm & _ & _ & _ & _ & Hg & _).
  cbn [quad4 qp_mass] in Hm.
  destruct (zero_errors q_identity zero3) as [Hp Hd].
  split; [exact Hm|]. split; [exact Hg|]. split.
  - apply (F_des_hover c Hp Hd eq_refl).
  - apply (R_des_hover_yaw0 c Hp Hd eq_refl eq_refl). rewrite Hm, Hg. lra.
Qed.



(** The four kinds of failure, on four vehicles. *)
Lemma init_error_cases_witness :
  __init__ (xquad 0.1 0 1e-7) = Err ZeroDivisionError /\
  __init__ (with_rotors quad4 4 []) = Err ValueError /\
  __init__ tri3 = Err (LinAlgError NotSquare) /\
  __init__ quad4_stacked = Err (LinAlgError Singular).
Proof.
  split; [|split; [|split]].
  - apply (proj1 (init_error_cases (xquad 0.1 0 1e-7))). reflexivity.
  - apply (proj1 (proj2 (init_error_cases (with_rotors quad4 4 []))));
      [exact quad4_k_eta | right; left; reflexivity].
  - apply (proj1 (proj2 (proj2 (init_error_cases tri3))));
      [exact quad4_k_eta | reflexivity | reflexivity | discriminate].
  - apply (proj2 (proj2 (proj2 (init_error_cases quad4_stacked))));
      [exact quad4_k_eta | reflexivity | reflexivity |].
    rewrite <- (build_f_to_TM_allocation quad4_stacked quad4_stacked_build).
    exact quad4_stacked_zero_row.
Defined.

(** [quad4]'s square with a yaw-moment coefficient of zero. *)
Lemma zero_k_m_is_singular_witness :
  __init__ (xquad 0.1 1e-6 0) = Err (LinAlgError Singular).
Proof.
  apply (zero_k_m_is_singular (xquad 0.1 1e-6 0));
    [exact quad4_k_eta | reflexivity | reflexivity | reflexivity].
Defined.

(** Four rotors on the line y = 10 - 3x. *)
Lemma collinear_rotors_not_invertible_witness :
  build_f_to_TM (qp_k_m quad4_line / qp_k_eta quad4_line)
    (qp_num_rotors quad4_line) (qp_rotor_pos quad4_line)
  = Ok (allocation_matrix quad4_line) /\
  det 4 (allocation_matrix quad4_line) = 0 /\
  ~ invertible (allocation_matrix quad4_line).
Proof.
  apply (collinear_rotors_not_invertible quad4_line); [reflexivity | reflexivity |].
  exists 0, 10, 1, (-3).
  repeat constructor;
    [exists 1 | exists 2 | exists 3 | exists 4]; cbn [snd v0 v1]; split; lra.
Defined.

(** The square of [quad4]: arm 0.1, [k_eta = 1e-6], [k_m = 1e-7]. *)
Lemma square_layout_mixer_witness :
  exists c,
    __init__ (xquad 0.1 1e-6 1e-7) = Ok c /\
    forall T Mx My Mz : R,
      np_matvec (TM_to_f c) [Fin T; Fin Mx; Fin My; Fin Mz]
      = Ok [Fin (T / 4 + Mx / (4 * 0.1) - My / (4 * 0.1) + Mz / (4 * (1e-7 / 1e-6)));
            Fin (T / 4 + Mx / (4 * 0.1) + My / (4 * 0.1) - Mz / (4 * (1e-7 / 1e-6)));
            Fin (T / 4 - Mx / (4 * 0.1) + My / (4 * 0.1) + Mz / (4 * (1e-7 / 1e-6)));
            Fin (T / 4 - Mx / (4 * 0.1) - My / (4 * 0.1) - Mz / (4 * (1e-7 / 1e-6)))].
Proof.
  apply (@square_layout_mixer 0.1 1e-6 1e-7); lra.
Defined.


(** A reverse force of 1 N with [k_eta = 1e-6]. *)
Lemma motor_speed_signed_witness :
  exists sp : R,
    motor_speed 1e-6 (Fin (-1)) = Fin sp /\
    sp * sp = Rabs (-1 / 1e-6) /\
    (sp < 0 <-> -1 / 1e-6 < 0) /\
    (0 < sp <-> 0 < -1 / 1e-6) /\
    (sp = 0 <-> -1 = 0) /\
    (-1 / 1e-6 < 0 -> fsqrt (Fin (-1) / Fin 1e-6) = NaN).
Proof.
  apply (@motor_speed_signed 1e-6 (-1)). lra.
Defined.

(** [update] on the controller of [quad4]. *)
Lemma update_raises_only_library_witness :
  exists c,
    __init__ quad4 = Ok c /\
    forall cmd,
      update quat_as_matrix matrix_as_quat c (Fin 0)
             (state0 q_identity) (flat0 zero3) = Ok cmd ->
      length (cmd_motor_speeds cmd) = 4%nat.
Proof.
  destruct quad4_init as (c & Hc & _).
  exists c. split; [exact Hc|].
  exact (proj2 (proj2 (update_raises_only_library quat_as_matrix matrix_as_quat
                         quad4 (Fin 0) (state0 q_identity) (flat0 zero3) Hc))).
Defined.

(** The vector (0, 0, 2). *)
Lemma normalize_unit_direction_witness :
  norm (normalize (V3 (Fin 0) (Fin 0) (Fin 2))) = Fin 1.
Proof.
  assert (H : rnorm 0 0 2 <> 0).
  { rewrite rnorm_axis, Rabs_right by lra. lra. }
  exact (proj1 (normalize_unit_direction 0 0 2 H)).
Defined.


(** [quad4] asked to accelerate along x, at yaw 0, while gravity is
    cancelled: the desired force is horizontal and along the yaw
    direction. *)
Lemma aligned_force_unguarded_witness :
  exists c,
    __init__ quad4 = Ok c /\
    b2_des c (state0 q_identity) (flat0 push_x) = nan3 /\
    forall cmd,
      update quat_as_matrix matrix_as_quat c (Fin 0)
             (state0 q_identity) (flat0 push_x) = Ok cmd ->
      cmd_moment cmd = nan3 /\ cmd_motor_speeds cmd = [NaN; NaN; NaN; NaN].
Proof.
  destruct quad4_init as (c & Hc & _).
  destruct (init_ok quad4 Hc) as (_ & _ & _ & Hm & _ & _ & _ & _ & Hg & _).
  cbn [quad4 qp_mass] in Hm.
  destruct (zero_errors q_identity push_x) as [Hp Hd].
  assert (HF : F_des c (state0 q_identity) (flat0 push_x)
               = V3 (Fin 0.03) (Fin 0) (Fin 0)).
  { rewrite (F_des_feed_forward c Hp Hd (ax := 1) (ay := 0) (az := - 9.81))
      by reflexivity.
    rewrite Hm, Hg. f_equal; apply Fin_eq; lra. }
  assert (Hal : 0.03 * sin 0 = 0 * cos 0) by (rewrite sin_0; ring).
  assert (Hab : 0.03 <> 0 \/ 0 <> 0) by (left; lra).
  destruct (aligned_force_unguarded quat_as_matrix matrix_as_quat quad4 (Fin 0)
              (psi := 0) Hc HF eq_refl Hal Hab) as (Hb2 & _ & Hcmd).
  exists c. split; [exact Hc|]. split; [exact Hb2 | exact Hcmd].
Defined.

(** The hover of [quad4], with the level orientation as current one. *)
Lemma S_err_is_skew_witness :
  exists c,
    __init__ quad4 = Ok c /\
    skew (att_err c (state0 q_identity) (flat0 zero3) (mfin (diag3 1 (-1) (-1))))
    = S_err c (state0 q_identity) (flat0 zero3) (mfin (diag3 1 (-1) (-1))).
Proof.
  destruct quad4_hover_facts as (c & Hc & _ & _ & _ & HR).
  exists c. split; [exact Hc|].
  exact (proj1 (S_err_is_skew (diag3 1 (-1) (-1)) HR)).
Defined.

(** The hover of [quad4]: thrust equal to the norm of the weight. *)
Lemma command_at_target_attitude_witness :
  exists c,
    __init__ quad4 = Ok c /\
    att_err c (state0 q_identity) (flat0 zero3) (mfin (diag3 1 1 1)) = zero3 /\
    u1 c (state0 q_identity) (flat0 zero3) (mfin (diag3 1 1 1))
    = Fin (rnorm 0 0 (mass c * g c)).
Proof.
  destruct quad4_hover_facts as (c & Hc & _ & _ & HF & HR).
  destruct (command_at_target_attitude (w := V3 0 0 0) (yd := 0)
              HF HR eq_refl eq_refl) as (Ha & Hu & _).
  exists c. split; [exact Hc|]. split; assumption.
Defined.

(** The hover force of [quad4] seen from the upside-down orientation. *)
Lemma thrust_bounded_by_force_witness :
  exists c (T : R),
    __init__ quad4 = Ok c /\
    u1 c (state0 q_identity) (flat0 zero3) (mfin (diag3 1 (-1) (-1))) = Fin T /\
    Rabs T <= rnorm 0 0 (mass c * g c).
Proof.
  destruct quad4_hover_facts as (c & Hc & _ & _ & HF & _).
  assert (Hunit : v2 (v0 (diag3 1 (-1) (-1))) * v2 (v0 (diag3 1 (-1) (-1)))
                  + v2 (v1 (diag3 1 (-1) (-1))) * v2 (v1 (diag3 1 (-1) (-1)))
                  + v2 (v2 (diag3 1 (-1) (-1))) * v2 (v2 (diag3 1 (-1) (-1))) = 1)
    by (cbn [diag3 v0 v1 v2]; ring).
  destruct (thrust_bounded_by_force (diag3 1 (-1) (-1)) HF Hunit) as (T & HT & Hle).
  exists c, T. split; [exact Hc|]. split; assumption.
Defined.


(** The rotors of [quad4] raised by 5 cm. *)
Lemma allocation_ignores_rotor_height_witness :
  is_ok (__init__ (with_rotors quad4 (qp_num_rotors quad4) quad4_raised_pos))
  <-> is_ok (__init__ quad4).
Proof.
  assert (H : Forall2 same_xy (qp_rotor_pos quad4) quad4_raised_pos).
  { repeat constructor. }
  exact (proj1 (allocation_ignores_rotor_height quad4 H)).
Defined.
